(** * never-fair: a shallow embedding of [playground/never-fair.ipynb]

    The notebook loads a generated data set, trains a classifier and an
    adversary on it and reports fairness metrics.  This development embeds
    the notebook's own functions ([load_GEN_data], [p_rule], [fp_rate],
    [fn_rate], [Classifier], [Adverserial], [pretrain_classifier],
    [pretrain_adverserial], [train] and the cells that call them) and proves
    properties of them.

    Numbers.  The notebook computes with IEEE floating point numbers.  They
    are idealised here as exact rationals extended with the special values
    the notebook can produce: minus zero, the infinities and NaN (a division
    by zero in numpy gives an infinity or a NaN together with a warning; it
    does not raise).  Rounding, overflow and underflow are not modelled. *)

From Stdlib Require Import QArith Qminmax Qround Qabs ZArith List String Ascii Bool Lia Lqa.
From Stdlib Require Import Sorted Permutation.
From Stdlib Require OrderedTypeEx.
Import ListNotations.

Set Implicit Arguments.

Open Scope Q_scope.

(** ** Exceptions and results *)

(** The Python exceptions the modelled operations can raise. *)
Inductive exn : Type :=
| KeyError (label : string)          (* a column label that is not there *)
| ValueError (what : string)         (* a cast that cannot be done *)
| IndexingError                      (* a boolean key that cannot be aligned *)
| UnboundLocalError (name : string)  (* a local read before it is bound *)
| RuntimeError (what : string)       (* torch: shapes that do not match *)
| AssertionError                     (* an assert that fails *)
| OSError (path : string).           (* the data file cannot be read *)

Inductive result (A : Type) : Type :=
| Ok (a : A)
| Raise (e : exn).

Arguments Ok {A} a.
Arguments Raise {A} e.

Definition bind {A B : Type} (r : result A) (k : A -> result B) : result B :=
  match r with
  | Ok a => k a
  | Raise e => Raise e
  end.

Notation "x <- r ;; k" := (bind r (fun x => k))
  (at level 61, r at next level, right associativity).
Notation "' pat <- r ;; k" := (bind r (fun pat => k))
  (at level 61, pat pattern, r at next level, right associativity).

Fixpoint mapM {A B : Type} (f : A -> result B) (l : list A) : result (list B) :=
  match l with
  | [] => Ok []
  | a :: l' => b <- f a ;; bs <- mapM f l' ;; Ok (b :: bs)
  end.

(** ** numpy floats *)

(** A finite number, minus zero, the two infinities, or NaN.  [Fin q] with
    [q] zero is plus zero. *)
Inductive npfloat : Type :=
| Fin (q : Q)
| NZero
| PInf
| NInf
| NaN.

(** Finite results are kept in lowest terms, so that equal numbers are equal
    terms. *)
Definition fin (q : Q) : npfloat := Fin (Qred q).

Definition Qltb (a b : Q) : bool := negb (Qle_bool b a).

(** The sign bit: set on what is negative, minus zero included. *)
Definition signbit (a : npfloat) : bool :=
  match a with
  | Fin q => Qltb q 0
  | NZero => true
  | PInf => false
  | NInf => true
  | NaN => false
  end.

Definition is_zero (a : npfloat) : bool :=
  match a with
  | Fin q => Qeq_bool q 0
  | NZero => true
  | _ => false
  end.

Definition is_inf (a : npfloat) : bool :=
  match a with
  | PInf => true
  | NInf => true
  | _ => false
  end.

(** The number behind a finite value. *)
Definition magnitude (a : npfloat) : Q :=
  match a with
  | Fin q => q
  | _ => 0
  end.

(** Zero and infinity with the given sign bit. *)
Definition zero (negative : bool) : npfloat := if negative then NZero else Fin 0.
Definition inf (negative : bool) : npfloat := if negative then NInf else PInf.

(** [a / b] on numpy floats ([true_divide]): NaN for [0/0] and [inf/inf],
    an infinity for a division by zero, a zero for a division by an
    infinity, the sign being the product of the signs. *)
Definition fdiv (a b : npfloat) : npfloat :=
  let negative := xorb (signbit a) (signbit b) in
  match a, b with
  | NaN, _ => NaN
  | _, NaN => NaN
  | _, _ =>
      if is_inf a then (if is_inf b then NaN else inf negative)
      else if is_inf b then zero negative
      else if is_zero b then (if is_zero a then NaN else inf negative)
      else if is_zero a then zero negative
      else fin (magnitude a / magnitude b)
  end.

(** [a * b] on numpy floats: NaN for [0 * inf]. *)
Definition fmul (a b : npfloat) : npfloat :=
  let negative := xorb (signbit a) (signbit b) in
  match a, b with
  | NaN, _ => NaN
  | _, NaN => NaN
  | _, _ =>
      if (is_inf a || is_inf b)%bool
      then (if (is_zero a || is_zero b)%bool then NaN else inf negative)
      else if (is_zero a || is_zero b)%bool then zero negative
      else fin (magnitude a * magnitude b)
  end.

(** [a <= b] on numpy floats: every comparison with NaN is false, and the
    two zeros are equal. *)
Definition fle (a b : npfloat) : bool :=
  match a, b with
  | NaN, _ => false
  | _, NaN => false
  | NInf, _ => true
  | _, PInf => true
  | PInf, _ => false
  | _, NInf => false
  | _, _ => Qle_bool (magnitude a) (magnitude b)
  end.

(** [np.min([a, b])]: the smaller one, and NaN as soon as one of them is.
    (Of two zeros of different sign it is left open here which one numpy
    returns; [p_rule] never compares two zeros.) *)
Definition np_min2 (a b : npfloat) : npfloat :=
  match a, b with
  | NaN, _ => NaN
  | _, NaN => NaN
  | _, _ => if fle a b then a else b
  end.

(** ** pandas Series *)

(** A Series is the list of its values; the Series of one call share one
    index (the notebook builds the predictions with [index=y_test.index]),
    so position stands for label. *)

Definition Qsum (l : list Q) : Q := fold_right Qplus 0 l.

(** [s.mean()]: NaN on an empty Series. *)
Definition series_mean (s : list Q) : npfloat :=
  match s with
  | [] => NaN
  | _ => fin (Qsum s / inject_Z (Z.of_nat (List.length s)))
  end.

(** A boolean counts as 1 or 0 in [mean] and [sum]. *)
Definition b2q (b : bool) : Q := if b then 1 else 0.

(** [s[key]] with a boolean Series as key: the key is brought to the index
    of [s] and the values where it is true are kept; a key that lacks a
    label of [s] is refused. *)
Fixpoint boolean_index {A : Type} (s : list A) (key : list bool) : result (list A) :=
  match s, key with
  | [], _ => Ok []
  | a :: s', b :: key' =>
      r <- boolean_index s' key' ;; Ok (if b then a :: r else r)
  | _ :: _, [] => Raise IndexingError
  end.

(** [a & b] on boolean Series: on the union of the two indexes, false where
    one of them has no entry. *)
Fixpoint series_and (a b : list bool) : list bool :=
  match a, b with
  | x :: a', y :: b' => (x && y) :: series_and a' b'
  | _ :: a', [] => false :: series_and a' []
  | [], b => map (fun _ => false) b
  end.

(** ** The fairness metrics *)

(** Python's truth value of a number: zero is false. *)
Definition truthy (x : Q) : bool := negb (Qeq_bool x 0).

(** [[
def p_rule(y_pred, z_values, threshold=0.5):
    y_z_1 = y_pred[z_values == 1] > threshold if threshold else y_pred[z_values == 1]
    y_z_0 = y_pred[z_values == 0] > threshold if threshold else y_pred[z_values == 0]
    odds = y_z_1.mean() / y_z_0.mean()
    return np.min([odds, 1/odds]) * 100
]] *)
Definition p_rule (y_pred : list Q) (z_values : list Z) (threshold : Q)
  : result npfloat :=
  y_z_1 <- (if truthy threshold
            then s <- boolean_index y_pred (map (Z.eqb 1) z_values) ;;
                 Ok (map (fun v => b2q (Qltb threshold v)) s)
            else boolean_index y_pred (map (Z.eqb 1) z_values)) ;;
  y_z_0 <- (if truthy threshold
            then s <- boolean_index y_pred (map (Z.eqb 0) z_values) ;;
                 Ok (map (fun v => b2q (Qltb threshold v)) s)
            else boolean_index y_pred (map (Z.eqb 0) z_values)) ;;
  let odds := fdiv (series_mean y_z_1) (series_mean y_z_0) in
  Ok (fmul (np_min2 odds (fdiv (Fin 1) odds)) (Fin 100)).

(** [(s > threshold).sum()] and [(s <= threshold).sum()]. *)
Definition count_gt (s : list Q) (threshold : Q) : Z :=
  Z.of_nat (List.length (filter (fun v => Qltb threshold v) s)).

Definition count_le (s : list Q) (threshold : Q) : Z :=
  Z.of_nat (List.length (filter (fun v => Qle_bool v threshold) s)).

(** [n / len(s)] for a numpy integer [n]: a float division. *)
Definition div_len (n : Z) (len : nat) : npfloat :=
  fdiv (Fin (inject_Z n)) (Fin (inject_Z (Z.of_nat len))).

(** The result of [fp_rate] and [fn_rate]: the dict [{0: .., 1: ..}]. *)
Definition rates : Type := list (Z * npfloat).

(** [[
def fp_rate(y_test, y_pred, z_values, threshold=0.5):
    z_1 = y_pred[(y_test == False) & (z_values == 1)]
    z_0 = y_pred[(y_test == False) & (z_values == 0)]
    return {0: (z_0 > threshold).sum() / len(z_0), 1:(z_1 > threshold).sum() / len(z_1)}
]] *)
Definition fp_rate (y_test : list Z) (y_pred : list Q) (z_values : list Z)
    (threshold : Q) : result rates :=
  z_1 <- boolean_index y_pred
           (series_and (map (Z.eqb 0) y_test) (map (Z.eqb 1) z_values)) ;;
  z_0 <- boolean_index y_pred
           (series_and (map (Z.eqb 0) y_test) (map (Z.eqb 0) z_values)) ;;
  Ok [(0%Z, div_len (count_gt z_0 threshold) (List.length z_0));
      (1%Z, div_len (count_gt z_1 threshold) (List.length z_1))].

(** [[
def fn_rate(y_test, y_pred, z_values, threshold=0.5):
    z_1 = y_pred[(y_test == True) & (z_values == 1)]
    z_0 = y_pred[(y_test == True) & (z_values == 0)]
    return {0: (z_0 <= threshold).sum() / len(z_0), 1:(z_1 <= threshold).sum() / len(z_1)}
]] *)
Definition fn_rate (y_test : list Z) (y_pred : list Q) (z_values : list Z)
    (threshold : Q) : result rates :=
  z_1 <- boolean_index y_pred
           (series_and (map (Z.eqb 1) y_test) (map (Z.eqb 1) z_values)) ;;
  z_0 <- boolean_index y_pred
           (series_and (map (Z.eqb 1) y_test) (map (Z.eqb 0) z_values)) ;;
  Ok [(0%Z, div_len (count_le z_0 threshold) (List.length z_0));
      (1%Z, div_len (count_le z_1 threshold) (List.length z_1))].

(** ** pandas DataFrames *)

(** A column as [read_csv] types it: integers, floats (a missing or
    non-finite entry is [None]), booleans, or Python objects, that is the
    strings of the file (a missing entry is [None]). *)
Inductive column : Type :=
| IntCol (v : list Z)
| FloatCol (v : list (option Q))
| BoolCol (v : list bool)
| ObjCol (v : list (option string)).

(** A frame is the list of its labelled columns, in order; [read_csv] makes
    the labels distinct. *)
Definition DataFrame : Type := list (string * column).

Definition columns (df : DataFrame) : list string := map fst df.

Definition is_object (c : column) : bool :=
  match c with
  | ObjCol _ => true
  | _ => false
  end.

Definition has_column (label : string) (df : DataFrame) : bool :=
  existsb (String.eqb label) (columns df).

(** [df[label]]. *)
Fixpoint getitem (df : DataFrame) (label : string) : result column :=
  match df with
  | [] => Raise (KeyError label)
  | (l, c) :: df' => if String.eqb l label then Ok c else getitem df' label
  end.

(** [df.loc[:, labels]]: the listed columns, in the order of the list. *)
Definition loc_columns (df : DataFrame) (labels : list string) : result DataFrame :=
  mapM (fun l => c <- getitem df l ;; Ok (l, c)) labels.

(** [df.assign(label=c)]: the column replaces the one of that label, or is
    added last. *)
Fixpoint assign (df : DataFrame) (label : string) (c : column) : DataFrame :=
  match df with
  | [] => [(label, c)]
  | (l, c0) :: df' =>
      if String.eqb l label then (l, c) :: df' else (l, c0) :: assign df' label c
  end.

(** [df.drop(columns=labels)]: every label has to be there. *)
Definition drop (df : DataFrame) (labels : list string) : result DataFrame :=
  match filter (fun l => negb (has_column l df)) labels with
  | [] => Ok (filter (fun lc => negb (existsb (String.eqb (fst lc)) labels)) df)
  | l :: _ => Raise (KeyError l)
  end.

(** [s == v] for a string [v]: elementwise, false on everything that is not
    that string.  (On a column of numbers pandas 0.24 and later answer false
    everywhere, as here; earlier versions refuse the comparison.) *)
Definition eq_str (c : column) (v : string) : list bool :=
  match c with
  | ObjCol l => map (fun o => match o with Some s => String.eqb s v | None => false end) l
  | IntCol l => map (fun _ => false) l
  | FloatCol l => map (fun _ => false) l
  | BoolCol l => map (fun _ => false) l
  end.

Definition b2z (b : bool) : Z := if b then 1%Z else 0%Z.

(** Rounding towards zero, as a cast of a float to an integer does. *)
Definition Qtrunc (q : Q) : Z :=
  if Qle_bool 0 q then Qfloor q else Qceiling q.

(** Python's [int(s)] on a string: blanks around, a sign, decimal digits, a
    single underscore allowed between two digits.  (Digits outside ASCII are
    not modelled.) *)
Definition is_blank (c : ascii) : bool :=
  let n := nat_of_ascii c in
  (Nat.eqb n 32 || (Nat.leb 9 n && Nat.leb n 13) || (Nat.leb 28 n && Nat.leb n 31))%bool.

Definition digit_of (c : ascii) : option Z :=
  let n := nat_of_ascii c in
  if (Nat.leb 48 n && Nat.leb n 57)%bool then Some (Z.of_nat (n - 48)) else None.

Fixpoint lstrip (s : string) : string :=
  match s with
  | String c s' => if is_blank c then lstrip s' else s
  | EmptyString => EmptyString
  end.

Fixpoint string_rev (s acc : string) : string :=
  match s with
  | String c s' => string_rev s' (String c acc)
  | EmptyString => acc
  end.

Definition strip (s : string) : string :=
  string_rev (lstrip (string_rev (lstrip s) EmptyString)) EmptyString.

(** [after_digit] tells whether the character before was a digit. *)
Fixpoint py_digits (s : string) (acc : Z) (after_digit : bool) : option Z :=
  match s with
  | EmptyString => if after_digit then Some acc else None
  | String c s' =>
      match digit_of c with
      | Some d => py_digits s' (10 * acc + d)%Z true
      | None =>
          if (Ascii.eqb c "_" && after_digit)%bool
          then match s' with
               | String c' _ =>
                   match digit_of c' with
                   | Some _ => py_digits s' acc false
                   | None => None
                   end
               | EmptyString => None
               end
          else None
      end
  end.

Definition py_int (s : string) : option Z :=
  match strip s with
  | String "-" s' => option_map Z.opp (py_digits s' 0%Z false)
  | String "+" s' => py_digits s' 0%Z false
  | s' => py_digits s' 0%Z false
  end.

Definition all_some {A : Type} (what : string) (l : list (option A)) : result (list A) :=
  mapM (fun o => match o with Some a => Ok a | None => Raise (ValueError what) end) l.

(** [s.astype(int)]. *)
Definition astype_int (c : column) : result (list Z) :=
  match c with
  | IntCol l => Ok l
  | BoolCol l => Ok (map b2z l)
  | FloatCol l =>
      l' <- all_some "Cannot convert non-finite values (NA or inf) to integer" l ;;
      Ok (map Qtrunc l')
  | ObjCol l =>
      all_some "invalid literal for int()"
        (map (fun o => match o with Some s => py_int s | None => None end) l)
  end.

(** *** [pd.get_dummies(df, drop_first=True)] *)

(** The levels of an object column: its distinct strings in increasing
    order; missing entries are no level. *)
Fixpoint insert_level (s : string) (levels : list string) : list string :=
  match levels with
  | [] => [s]
  | l :: levels' =>
      match String.compare s l with
      | Lt => s :: levels
      | Eq => levels
      | Gt => l :: insert_level s levels'
      end
  end.

Fixpoint levels_of (v : list (option string)) : list string :=
  match v with
  | [] => []
  | Some s :: v' => insert_level s (levels_of v')
  | None :: v' => levels_of v'
  end.

(** The indicator columns of one object column, named [label_level], the
    first level left out. *)
Definition dummies_1d (label : string) (v : list (option string)) : DataFrame :=
  map (fun level =>
         ((label ++ "_" ++ level)%string,
          IntCol (map (fun o => match o with
                                | Some s => b2z (String.eqb s level)
                                | None => 0%Z
                                end) v)))
      (tl (levels_of v)).

(** The columns that are not objects come first, as they are; then the
    indicator columns of each object column. *)
Definition get_dummies (df : DataFrame) : DataFrame :=
  filter (fun lc => negb (is_object (snd lc))) df
  ++ flat_map (fun lc => match snd lc with
                         | ObjCol v => dummies_1d (fst lc) v
                         | _ => []
                         end) df.

(** ** [load_GEN_data] *)

(** The file system is the outcome of [pd.read_csv] on each path: a frame
    or the exception it raises. *)
Definition filesystem : Type := string -> result DataFrame.

(** [[
def load_GEN_data(path):
    input_data = pd.read_csv(path)
    sensitive_attribs = ['protected']
    Z = (input_data.loc[:, sensitive_attribs]
         .assign(protected=lambda df: (df['protected'] == 'B').astype(int)))
    y = input_data['target'].astype(int)
    X = (input_data
         .drop(columns=['target', 'protected'])
         .pipe(pd.get_dummies, drop_first=True))
    return X, y, Z
]]
    The three [print] calls, which show the shapes, are left out. *)
Definition load_GEN_data (read_csv : filesystem) (path : string)
  : result (DataFrame * list Z * DataFrame) :=
  input_data <- read_csv path ;;
  let sensitive_attribs := ["protected"%string] in
  Zf <- loc_columns input_data sensitive_attribs ;;
  prot <- getitem Zf "protected" ;;
  let Z := assign Zf "protected" (IntCol (map b2z (eq_str prot "B"))) in
  target <- getitem input_data "target" ;;
  y <- astype_int target ;;
  dropped <- drop input_data ["target"%string; "protected"%string] ;;
  let X := get_dummies dropped in
  Ok (X, y, Z).

(** ** torch: tensors, layers and modules *)

(** A tensor of two dimensions: a batch of rows. *)
Definition tensor : Type := list (list Q).

Definition numel (t : tensor) : nat := List.length (List.concat t).

Definition tensor_sum (t : tensor) : Q := Qsum (List.concat t).

(** The layers the two networks are made of.  A [Linear] keeps the sizes it
    was made with, its weight (one row per output) and its bias. *)
Inductive layer : Type :=
| Linear (in_features out_features : nat) (weight : list (list Q)) (bias : list Q)
| ReLU
| Dropout (p : Q).

(** The [.grad] buffers of the parameters of a module, as one flat vector:
    not there until the first [backward], all zeros after [zero_grad], or
    the gradients added up since. *)
Inductive grad_buffer : Type :=
| NoGrad
| Zeros
| Grad (g : list Q).

(** A module: the [nn.Sequential] it calls [out], and the gradient buffers
    of its parameters. *)
Record module : Type := {
  out : list layer;
  grad : grad_buffer
}.

(** The state of an [optim.Adam]: the number of steps taken and the running
    moments. *)
Record adam (Moments : Type) : Type := {
  step_count : nat;
  moments : Moments
}.

(** What the notebook takes from torch, numpy and scikit-learn without
    defining it: pseudo-random generators and what draws from them, the
    transcendental functions, differentiation, Adam's arithmetic, and the
    scikit-learn calls. *)
Class Library : Type := {
  (* torch's default generator *)
  Rng : Type;
  manual_seed : Z -> Rng;
  (* the weight and the bias [nn.Linear(i, o)] starts with *)
  init_linear : nat -> nat -> Rng -> (list (list Q) * list Q) * Rng;
  (* the keep-mask of [nn.Dropout(p)] for that many elements *)
  bernoulli : Q -> nat -> Rng -> list bool * Rng;
  (* [torch.randperm(n)], for the shuffling [DataLoader] *)
  randperm : nat -> Rng -> list nat * Rng;
  sigmoid : Q -> Q;
  (* the logarithm, as [BCELoss] takes it *)
  ln : Q -> Q;
  (* the gradient of a scalar with respect to the parameters of a network,
     at the given parameters *)
  autograd : (list layer -> result Q) -> list layer -> list Q;
  Moments : Type;
  adam_init : Moments;
  (* step number, moments, parameters, gradient: new parameters, moments *)
  adam_update : nat -> Moments -> list Q -> list Q -> list Q * Moments;
  (* numpy's global generator *)
  NpRng : Type;
  np_seed : Z -> NpRng;
  (* [train_test_split(.., test_size, stratify, random_state)]: the row
     numbers of the train part and of the test part *)
  train_test_split : Q -> list Z -> Z -> nat -> result (list nat * list nat);
  (* [StandardScaler().fit(a).transform(b)] *)
  standard_scale : DataFrame -> DataFrame -> result tensor;
  roc_auc_score : list Z -> list Q -> result npfloat;
  accuracy_score : list Z -> list bool -> result npfloat
}.

Section Torch.

Context {L : Library}.

(** *** Parameters *)

Definition layer_parameters (l : layer) : list Q :=
  match l with
  | Linear _ _ w b => List.concat w ++ b
  | _ => []
  end.

(** [module.parameters()], flattened. *)
Definition parameters (ls : list layer) : list Q := flat_map layer_parameters ls.

(** Refill rows of the same lengths from a flat list; the rest is returned. *)
Fixpoint refill (w : list (list Q)) (v : list Q) : list (list Q) * list Q :=
  match w with
  | [] => ([], v)
  | r :: w' =>
      let n := List.length r in
      let (w'', rest) := refill w' (skipn n v) in
      (firstn n v :: w'', rest)
  end.

(** The network with its parameters replaced, in the order of [parameters]. *)
Fixpoint set_parameters (ls : list layer) (v : list Q) : list layer :=
  match ls with
  | [] => []
  | Linear i o w b :: ls' =>
      let (w', rest) := refill w v in
      let n := List.length b in
      Linear i o w' (firstn n rest) :: set_parameters ls' (skipn n rest)
  | l :: ls' => l :: set_parameters ls' v
  end.

(** *** Gradients *)

Fixpoint vadd (a b : list Q) : list Q :=
  match a, b with
  | x :: a', y :: b' => (x + y) :: vadd a' b'
  | _, _ => []
  end.

(** [module.zero_grad()]. *)
Definition zero_grad (m : module) : module :=
  {| out := out m;
     grad := match grad m with
             | NoGrad => NoGrad
             | _ => Zeros
             end |}.

(** What [backward] does to the parameters of one module: the gradient is
    added to the buffer. *)
Definition accumulate (m : module) (g : list Q) : module :=
  {| out := out m;
     grad := Grad (match grad m with
                   | Grad g0 => vadd g0 g
                   | _ => g
                   end) |}.

(** One step of Adam on the parameters of [m] with the gradient [g]. *)
Definition adam_step (o : adam Moments) (m : module) (g : list Q)
  : adam Moments * module :=
  let t := S (step_count o) in
  let (v, mo) := adam_update t (moments o) (parameters (out m)) g in
  ({| step_count := t; moments := mo |},
   {| out := set_parameters (out m) v; grad := grad m |}).

(** [optimizer.step()] for the Adam that holds the parameters of [m];
    parameters without a gradient are skipped. *)
Definition optimizer_step (o : adam Moments) (m : module) : adam Moments * module :=
  match grad m with
  | NoGrad => (o, m)
  | Zeros => adam_step o m (map (fun _ => 0) (parameters (out m)))
  | Grad g => adam_step o m g
  end.

(** [optim.Adam(module.parameters())]. *)
Definition Adam : adam Moments := {| step_count := 0; moments := adam_init |}.

(** *** Forward passes *)

Fixpoint dot (a b : list Q) : Q :=
  match a, b with
  | x :: a', y :: b' => x * y + dot a' b'
  | _, _ => 0
  end.

Fixpoint linear_row (w : list (list Q)) (b : list Q) (x : list Q) : list Q :=
  match w, b with
  | r :: w', c :: b' => (dot r x + c) :: linear_row w' b' x
  | _, _ => []
  end.

Definition relu (x : Q) : Q := if Qle_bool 0 x then x else 0.

(** The rows of [t] with the elements the mask drops set to zero and the
    others scaled by [1 / (1 - p)]; the rest of the mask is returned. *)
Fixpoint mask_row (p : Q) (row : list Q) (mask : list bool) : list Q * list bool :=
  match row with
  | [] => ([], mask)
  | x :: row' =>
      let keep := match mask with k :: _ => k | [] => true end in
      let (r, rest) := mask_row p row' (tl mask) in
      ((if keep then x / (1 - p) else 0) :: r, rest)
  end.

Fixpoint mask_rows (p : Q) (t : tensor) (mask : list bool) : tensor :=
  match t with
  | [] => []
  | row :: t' =>
      let (r, rest) := mask_row p row mask in
      r :: mask_rows p t' rest
  end.

(** One layer on a batch.  The modules are never put in evaluation mode, so
    a [Dropout] always draws. *)
Definition layer_forward (l : layer) (g : Rng) (t : tensor) : result (tensor * Rng) :=
  match l with
  | Linear i _ w b =>
      if forallb (fun row => Nat.eqb (List.length row) i) t
      then Ok (map (linear_row w b) t, g)
      else Raise (RuntimeError "size mismatch")
  | ReLU => Ok (map (map relu) t, g)
  | Dropout p =>
      let (mask, g') := bernoulli p (numel t) g in
      Ok (mask_rows p t mask, g')
  end.

(** [nn.Sequential]. *)
Fixpoint sequential (ls : list layer) (g : Rng) (t : tensor) : result (tensor * Rng) :=
  match ls with
  | [] => Ok (t, g)
  | l :: ls' => '(t', g') <- layer_forward l g t ;; sequential ls' g' t'
  end.

(** [[
    def forward(self, x):
        return F.sigmoid(self.out(x))
]]
    the same for [Classifier] and [Adverserial]. *)
Definition forward (ls : list layer) (g : Rng) (x : tensor) : result (tensor * Rng) :=
  '(t, g') <- sequential ls g x ;; Ok (map (map sigmoid) t, g').

(** [nn.Linear(i, o)]. *)
Definition new_linear (i o : nat) (g : Rng) : layer * Rng :=
  let '((w, b), g') := init_linear i o g in (Linear i o w b, g').

(** [[
class Classifier(nn.Module):
    def __init__(self, n_features, n_hidden=32, p_dropout=0.2):
        self.dropout = nn.Dropout(p_dropout)
        self.out = nn.Sequential(
            nn.Linear(n_features, n_hidden), nn.ReLU(), self.dropout,
            nn.Linear(n_hidden, n_hidden), nn.ReLU(), self.dropout,
            nn.Linear(n_hidden, n_hidden), nn.ReLU(), self.dropout,
            nn.Linear(n_hidden, 1),
        )
]] *)
Definition Classifier (n_features n_hidden : nat) (p_dropout : Q) (g : Rng)
  : module * Rng :=
  let dropout := Dropout p_dropout in
  let (l1, g1) := new_linear n_features n_hidden g in
  let (l2, g2) := new_linear n_hidden n_hidden g1 in
  let (l3, g3) := new_linear n_hidden n_hidden g2 in
  let (l4, g4) := new_linear n_hidden 1 g3 in
  ({| out := [l1; ReLU; dropout; l2; ReLU; dropout; l3; ReLU; dropout; l4];
      grad := NoGrad |}, g4).

(** [[
class Adverserial(nn.Module):
    def __init__(self, n_sensitive, n_hidden=32):
        self.out = nn.Sequential(
            nn.Linear(1, n_hidden), nn.ReLU(),
            nn.Linear(n_hidden, n_hidden), nn.ReLU(),
            nn.Linear(n_hidden, n_hidden), nn.ReLU(),
            nn.Linear(n_hidden, n_sensitive),
        )
]] *)
Definition Adverserial (n_sensitive n_hidden : nat) (g : Rng) : module * Rng :=
  let (l1, g1) := new_linear 1 n_hidden g in
  let (l2, g2) := new_linear n_hidden n_hidden g1 in
  let (l3, g3) := new_linear n_hidden n_hidden g2 in
  let (l4, g4) := new_linear n_hidden n_sensitive g3 in
  ({| out := [l1; ReLU; l2; ReLU; l3; ReLU; l4]; grad := NoGrad |}, g4).

End Torch.

Section Training.

Context {L : Library}.

(** ** Losses *)

(** The cross-entropy of one prediction [p] against one label [t]. *)
Definition bce (p t : Q) : Q := - (t * ln p + (1 - t) * ln (1 - p)).

Fixpoint map2 {A B C : Type} (f : A -> B -> C) (a : list A) (b : list B) : list C :=
  match a, b with
  | x :: a', y :: b' => f x y :: map2 f a' b'
  | _, _ => []
  end.

(** A flat list cut into rows as long as those of [like]. *)
Fixpoint reshape_like (like : tensor) (v : list Q) : tensor :=
  match like with
  | [] => []
  | row :: like' =>
      let n := List.length row in
      firstn n v :: reshape_like like' (skipn n v)
  end.

(** [nn.BCELoss(reduce=False)]: one loss per element, in the shape of the
    input; the target has to have as many elements. *)
Definition BCELoss_none (input target : tensor) : result tensor :=
  if Nat.eqb (numel input) (numel target)
  then Ok (reshape_like input (map2 bce (List.concat input) (List.concat target)))
  else Raise (ValueError "Target and input must have the same number of elements").

(** [nn.BCELoss()]: the mean of these losses.  (A batch of a [DataLoader] is
    never empty; on an empty tensor torch gives NaN, which a rational cannot
    show.) *)
Definition BCELoss (input target : tensor) : result Q :=
  l <- BCELoss_none input target ;;
  Ok (tensor_sum l / inject_Z (Z.of_nat (numel l))).

(** [t * v] for a tensor of one dimension [v], which is broadcast along the
    rows. *)
Definition mul_broadcast (t : tensor) (v : list Q) : result tensor :=
  mapM (fun row =>
          match row, v with
          | _, [c] => Ok (map (fun a => a * c) row)
          | [a], _ => Ok (map (fun c => a * c) v)
          | _, _ =>
              if Nat.eqb (List.length row) (List.length v)
              then Ok (map2 Qmult row v)
              else Raise (RuntimeError "The size of tensor a must match the size of tensor b")
          end) t.

(** [lambdas = torch.Tensor([20])] *)
Definition lambdas : list Q := [20].

(** ** Data sets and loaders *)

Definition take {A : Type} (d : A) (idx : list nat) (l : list A) : list A :=
  map (fun i => nth i l d) idx.

Definition column_take (idx : list nat) (c : column) : column :=
  match c with
  | IntCol v => IntCol (take 0%Z idx v)
  | FloatCol v => FloatCol (take None idx v)
  | BoolCol v => BoolCol (take false idx v)
  | ObjCol v => ObjCol (take None idx v)
  end.

(** The rows of a frame at the given positions. *)
Definition frame_take (idx : list nat) (df : DataFrame) : DataFrame :=
  map (fun lc => (fst lc, column_take idx (snd lc))) df.

(** The values of a column as floats.  (The frames this is applied to, [y]
    and [Z], hold integers; a missing value would be a NaN in the tensor,
    which a rational cannot show.) *)
Definition column_floats (c : column) : result (list Q) :=
  match c with
  | IntCol v => Ok (map inject_Z v)
  | BoolCol v => Ok (map b2q v)
  | FloatCol v => all_some "NaN" v
  | ObjCol _ => Raise (ValueError "can't convert np.ndarray of type numpy.object_")
  end.

Fixpoint transpose (n : nat) (cols : list (list Q)) : tensor :=
  match n with
  | O => []
  | S n' => map (hd 0) cols :: transpose n' (map (@tl Q) cols)
  end.

(** [torch.from_numpy(df.as_matrix()).float()] *)
Definition as_matrix (df : DataFrame) : result tensor :=
  cols <- mapM (fun lc => column_floats (snd lc)) df ;;
  Ok (transpose (List.length (hd [] cols)) cols).

(** [[
class GenDataset(TensorDataset):
    def __init__(self, X, y, Z):
        X = torch.from_numpy(X.as_matrix()).float()
        y = torch.from_numpy(y.to_frame('y').as_matrix()).float()
        Z = torch.from_numpy(Z.as_matrix()).float()
]]
    [X] comes in already scaled, as the matrix the scaler made.
    [TensorDataset] asserts that the three tensors have as many rows. *)
Record GenDataset : Type := {
  ds_X : tensor;
  ds_y : tensor;
  ds_Z : tensor
}.

Definition new_GenDataset (X : tensor) (y : list Z) (Zf : DataFrame) : result GenDataset :=
  y' <- as_matrix [("y"%string, IntCol y)] ;;
  Z' <- as_matrix Zf ;;
  if (Nat.eqb (List.length X) (List.length y')
      && Nat.eqb (List.length X) (List.length Z'))%bool
  then Ok {| ds_X := X; ds_y := y'; ds_Z := Z' |}
  else Raise AssertionError.

(** A [DataLoader]; torch makes none with a batch size that is not
    positive. *)
Record DataLoader : Type := {
  dataset : GenDataset;
  batch_size : positive;
  shuffle : bool;
  drop_last : bool
}.

(** One batch: [x], [y] and [z]. *)
Definition batch : Type := (tensor * tensor * tensor)%type.

Fixpoint chunk {A : Type} (fuel n : nat) (l : list A) : list (list A) :=
  match fuel, l with
  | _, [] => []
  | O, _ => []
  | S fuel', _ => firstn n l :: chunk fuel' n (skipn n l)
  end.

(** [iter(data_loader)]: the positions are drawn once (in order when the
    loader does not shuffle), cut into batches, and a last batch that is
    short is left out when [drop_last] is set. *)
Definition batches_of (dl : DataLoader) (g : Rng) : list batch * Rng :=
  let n := List.length (ds_X (dataset dl)) in
  let (order, g') := if shuffle dl then randperm n g else (seq 0 n, g) in
  let size := Pos.to_nat (batch_size dl) in
  let groups := chunk n size order in
  let kept := if drop_last dl
              then filter (fun grp => Nat.eqb (List.length grp) size) groups
              else groups in
  (map (fun idx => (take [] idx (ds_X (dataset dl)),
                    take [] idx (ds_y (dataset dl)),
                    take [] idx (ds_Z (dataset dl)))) kept, g').

(** A [for] loop whose body may raise. *)
Fixpoint for_each {S A : Type} (body : S -> A -> result S) (l : list A) (s : S)
  : result S :=
  match l with
  | [] => Ok s
  | a :: l' => s' <- body s a ;; for_each body l' s'
  end.

(** ** Training *)

(** A network together with the optimizer that holds its parameters. *)
Record learner : Type := {
  net : module;
  optimizer : adam Moments
}.

(** [loss.backward(); optimizer.step()] for a loss that reaches the
    parameters of one network only: [loss_of] gives the loss as a function
    of these parameters. *)
Definition backward_step (m : learner) (loss_of : list layer -> result Q) : learner :=
  let m1 := accumulate (net m) (autograd loss_of (out (net m))) in
  let (o, m2) := optimizer_step (optimizer m) m1 in
  {| net := m2; optimizer := o |}.

(** [[
def pretrain_classifier(clf, data_loader, optimizer, criterion):
    for x, y, _ in data_loader:
        clf.zero_grad()
        p_y = clf(x)
        loss = criterion(p_y, y)
        loss.backward()
        optimizer.step()
    return clf
]] *)
Definition pretrain_classifier_body (criterion : tensor -> tensor -> result Q)
    (s : learner * Rng) (b : batch) : result (learner * Rng) :=
  let '(clf, g) := s in
  let '(x, y, _) := b in
  let clf0 := {| net := zero_grad (net clf); optimizer := optimizer clf |} in
  '(p_y, g') <- forward (out (net clf0)) g x ;;
  loss <- criterion p_y y ;;
  Ok (backward_step clf0
        (fun theta => '(p, _) <- forward theta g x ;; criterion p y), g').

Definition pretrain_classifier (clf : learner) (data_loader : DataLoader)
    (criterion : tensor -> tensor -> result Q) (g : Rng) : result (learner * Rng) :=
  let (bs, g') := batches_of data_loader g in
  for_each (pretrain_classifier_body criterion) bs (clf, g').

(** [[
def pretrain_adverserial(adv, clf, data_loader, optimizer, criterion):
    for x, _, z in data_loader:
        p_y = clf(x).detach()
        adv.zero_grad()
        p_z = adv(p_y)
        loss = criterion(p_z, z)
        loss.backward()
        optimizer.step()
    return adv
]]
    [p_y] is detached: the loss reaches the parameters of [adv] only. *)
Definition pretrain_adverserial_body (clf : module)
    (criterion : tensor -> tensor -> result Q)
    (s : learner * Rng) (b : batch) : result (learner * Rng) :=
  let '(adv, g) := s in
  let '(x, _, z) := b in
  '(p_y, g1) <- forward (out clf) g x ;;
  let adv0 := {| net := zero_grad (net adv); optimizer := optimizer adv |} in
  '(p_z, g2) <- forward (out (net adv0)) g1 p_y ;;
  loss <- criterion p_z z ;;
  Ok (backward_step adv0
        (fun phi => '(p, _) <- forward phi g1 p_y ;; criterion p z), g2).

Definition pretrain_adverserial (adv : learner) (clf : module)
    (data_loader : DataLoader) (criterion : tensor -> tensor -> result Q)
    (g : Rng) : result (learner * Rng) :=
  let (bs, g') := batches_of data_loader g in
  for_each (pretrain_adverserial_body clf criterion) bs (adv, g').

(** The variables the loop of [train] leaves bound: the last batch, the
    [p_y] computed for it, and the generator state it was computed from
    (which fixes the dropout masks inside [p_y]). *)
Record loop_vars : Type := {
  last_x : tensor;
  last_y : tensor;
  last_z : tensor;
  last_p_y : tensor;
  last_rng : Rng
}.

(** The state of [train] while it runs. *)
Record train_state : Type := {
  ts_clf : learner;
  ts_adv : learner;
  ts_rng : Rng;
  ts_vars : option loop_vars
}.

(** The body of the loop of [train]:
[[
    for x, y, z in data_loader:
        p_y = clf(x)
        adv.zero_grad()
        p_adv = adv(p_y)
        loss_adv = adv_criterion(p_adv, z)
        loss_adv.backward(retain_graph=True)
        adv_optimizer.step()
]]
    [p_y] is not detached here: [backward] adds to the buffers of both
    networks. *)
Definition train_body (adv_criterion : tensor -> tensor -> result Q)
    (s : train_state) (b : batch) : result train_state :=
  let '(x, y, z) := b in
  let clf := net (ts_clf s) in
  let g := ts_rng s in
  '(p_y, g1) <- forward (out clf) g x ;;
  let adv0 := zero_grad (net (ts_adv s)) in
  '(p_adv, g2) <- forward (out adv0) g1 p_y ;;
  loss_adv <- adv_criterion p_adv z ;;
  let adv1 := accumulate adv0
      (autograd (fun phi => '(p, _) <- forward phi g1 p_y ;; adv_criterion p z)
                (out adv0)) in
  let clf1 := accumulate clf
      (autograd (fun theta =>
                   '(py, g') <- forward theta g x ;;
                   '(p, _) <- forward (out adv0) g' py ;;
                   adv_criterion p z)
                (out clf)) in
  let (o, adv2) := optimizer_step (optimizer (ts_adv s)) adv1 in
  Ok {| ts_clf := {| net := clf1; optimizer := optimizer (ts_clf s) |};
        ts_adv := {| net := adv2; optimizer := o |};
        ts_rng := g2;
        ts_vars := Some {| last_x := x; last_y := y; last_z := z;
                           last_p_y := p_y; last_rng := g |} |}.

(** The value of
[[
    clf_criterion(p_y, y) - (clf_adv_criterion(adv(p_y), z) * lambdas).sum()
]] *)
Definition clf_loss_value (clf_criterion : tensor -> tensor -> result Q)
    (clf_adv_criterion : tensor -> tensor -> result tensor)
    (adv : list layer) (g : Rng) (p_y y z : tensor) : result Q :=
  a <- clf_criterion p_y y ;;
  '(p_adv, _) <- forward adv g p_y ;;
  l <- clf_adv_criterion p_adv z ;;
  m <- mul_broadcast l lambdas ;;
  Ok (a - tensor_sum m).

(** [[
def train(clf, adv, data_loader, clf_criterion, adv_criterion,
          clf_adv_criterion, clf_optimizer, adv_optimizer):
    for x, y, z in data_loader:
        ...
    # Train classifier on last batch
    clf.zero_grad()
    clf_loss = clf_criterion(p_y, y) - (clf_adv_criterion(adv(p_y), z) * lambdas).sum()
    clf_loss.backward()
    clf_optimizer.step()
    return clf, adv
]] *)
Definition train_loop (clf adv : learner) (data_loader : DataLoader)
    (adv_criterion : tensor -> tensor -> result Q) (g : Rng) : result train_state :=
  let (bs, g') := batches_of data_loader g in
  for_each (train_body adv_criterion) bs
    {| ts_clf := clf; ts_adv := adv; ts_rng := g'; ts_vars := None |}.

Definition train_classifier_step
    (clf_criterion : tensor -> tensor -> result Q)
    (clf_adv_criterion : tensor -> tensor -> result tensor)
    (s : train_state) : result (learner * learner * Rng) :=
  let clf0 := zero_grad (net (ts_clf s)) in
  match ts_vars s with
  | None => Raise (UnboundLocalError "p_y")
  | Some v =>
      let adv := net (ts_adv s) in
      clf_loss <- clf_loss_value clf_criterion clf_adv_criterion (out adv)
                    (ts_rng s) (last_p_y v) (last_y v) (last_z v) ;;
      let clf1 := accumulate clf0
          (autograd (fun theta =>
                       '(py, _) <- forward theta (last_rng v) (last_x v) ;;
                       clf_loss_value clf_criterion clf_adv_criterion (out adv)
                         (ts_rng s) py (last_y v) (last_z v))
                    (out clf0)) in
      let adv1 := accumulate adv
          (autograd (fun phi =>
                       clf_loss_value clf_criterion clf_adv_criterion phi
                         (ts_rng s) (last_p_y v) (last_y v) (last_z v))
                    (out adv)) in
      let (o, clf2) := optimizer_step (optimizer (ts_clf s)) clf1 in
      Ok ({| net := clf2; optimizer := o |},
          {| net := adv1; optimizer := optimizer (ts_adv s) |},
          ts_rng s)
  end.

Definition train (clf adv : learner) (data_loader : DataLoader)
    (clf_criterion adv_criterion : tensor -> tensor -> result Q)
    (clf_adv_criterion : tensor -> tensor -> result tensor)
    (g : Rng) : result (learner * learner * Rng) :=
  s <- train_loop clf adv data_loader adv_criterion g ;;
  train_classifier_step clf_criterion clf_adv_criterion s.

End Training.

Section Notebook.

Context {L : Library}.

(** ** Figures *)

(** The text [_performance_text] writes on a figure. *)
Record performance : Type := {
  clf_roc_auc : npfloat;
  clf_accuracy : npfloat;
  p_rules : list (string * npfloat);
  fp_rates : rates;
  fn_rates : rates;
  adv_roc_auc : option npfloat
}.

(** A figure of [plot_dists]: the data of the two density plots (the
    predictions with the group and the label of each sample) and the text. *)
Record figure : Type := {
  fig_epoch : option nat;
  fig_y_pred : list Q;
  fig_protected : list Z;
  fig_y_true : list Z;
  fig_text : performance
}.

(** The values of [Z_test['protected']] as the integers the metrics compare
    with 0 and 1.  The column is the one [load_GEN_data] made, a column of
    integers; no other kind of column reaches this point. *)
Definition int_values (c : column) : result (list Z) :=
  match c with
  | IntCol v => Ok v
  | BoolCol v => Ok (map b2z v)
  | _ => Raise (ValueError "not an integer column")
  end.

(** [[
def _performance_text(fig, y_test, Z_test, y_pred, Z_pred=None, epoch=None):
    clf_roc_auc = metrics.roc_auc_score(y_test, y_pred)
    clf_accuracy = metrics.accuracy_score(y_test, y_pred > 0.5) * 100
    p_rules = {'protected': p_rule(y_pred, Z_test['protected'])}
    fp_rates = fp_rate(y_test, y_pred, Z_test['protected'])
    fn_rates = fn_rate(y_test, y_pred, Z_test['protected'])
    ...
    if Z_pred is not None:
        adv_roc_auc = metrics.roc_auc_score(Z_test, Z_pred)
]] *)
Definition _performance_text (y_test : list Z) (Z_test : DataFrame)
    (y_pred : list Q) (Z_pred : option (list Q)) : result performance :=
  auc <- roc_auc_score y_test y_pred ;;
  acc <- accuracy_score y_test (map (Qltb (1#2)) y_pred) ;;
  prot <- getitem Z_test "protected" ;;
  z <- int_values prot ;;
  pr <- p_rule y_pred z (1#2) ;;
  fp <- fp_rate y_test y_pred z (1#2) ;;
  fn <- fn_rate y_test y_pred z (1#2) ;;
  adv_auc <- match Z_pred with
             | None => Ok None
             | Some zp => a <- roc_auc_score z zp ;; Ok (Some a)
             end ;;
  Ok {| clf_roc_auc := auc;
        clf_accuracy := fmul acc (Fin 100);
        p_rules := [("protected"%string, pr)];
        fp_rates := fp;
        fn_rates := fn;
        adv_roc_auc := adv_auc |}.

(** [plot_dists(y_true, Z_true, y_pred, Z_pred=None, epoch=None)] *)
Definition plot_dists (y_true : list Z) (Z_true : DataFrame) (y_pred : list Q)
    (Z_pred : option (list Q)) (epoch : option nat) : result figure :=
  prot <- getitem Z_true "protected" ;;
  z <- int_values prot ;;
  text <- _performance_text y_true Z_true y_pred Z_pred ;;
  Ok {| fig_epoch := epoch; fig_y_pred := y_pred; fig_protected := z;
        fig_y_true := y_true; fig_text := text |}.

(** ** The cells, in order *)

(** The generators the session starts with. *)
Record generators : Type := {
  torch_rng : Rng;
  np_rng : NpRng
}.

(** [[
torch.manual_seed(1)
np.random.seed(7)
]] *)
Definition seed_cell (gen : generators) : generators :=
  {| torch_rng := manual_seed 1; np_rng := np_seed 7 |}.

Definition N_CLF_EPOCHS : nat := 50.
Definition N_ADV_EPOCHS : nat := 5.
Definition N_EPOCH_COMBINED : nat := 100.

(** [for epoch in range(n)] *)
Definition for_epochs {S : Type} (n : nat) (body : S -> nat -> result S) (s : S)
  : result S :=
  for_each body (seq 0 n) s.

(** What the cells build before any training. *)
Record prepared : Type := {
  train_loader : DataLoader;
  test_data : GenDataset;
  n_features : nat;
  n_sensitive : nat;
  y_test : list Z;
  Z_test : DataFrame
}.

(** [[
X, y, Z = load_GEN_data('data/generated.data')
X_train, X_test, y_train, y_test, Z_train, Z_test = train_test_split(
    X, y, Z, test_size=0.5, stratify=y, random_state=7)
scaler = StandardScaler().fit(X_train)
X_train = X_train.pipe(scale_df, scaler)
X_test = X_test.pipe(scale_df, scaler)
train_data = GenDataset(X_train, y_train, Z_train)
test_data = GenDataset(X_test, y_test, Z_test)
train_loader = DataLoader(train_data, batch_size=32, shuffle=True, drop_last=True)
]] *)
Definition data_cells (read_csv : filesystem) : result prepared :=
  '(X, y, Zf) <- load_GEN_data read_csv "data/generated.data" ;;
  '(train_idx, test_idx) <- train_test_split (1#2) y 7 (List.length y) ;;
  let X_train := frame_take train_idx X in
  let X_test := frame_take test_idx X in
  let y_train := take 0%Z train_idx y in
  let y_test := take 0%Z test_idx y in
  let Z_train := frame_take train_idx Zf in
  let Z_test := frame_take test_idx Zf in
  X_train' <- standard_scale X_train X_train ;;
  X_test' <- standard_scale X_train X_test ;;
  train_data <- new_GenDataset X_train' y_train Z_train ;;
  test_data <- new_GenDataset X_test' y_test Z_test ;;
  Ok {| train_loader := {| dataset := train_data; batch_size := 32%positive;
                           shuffle := true; drop_last := true |};
        test_data := test_data;
        n_features := List.length (columns X_train);
        n_sensitive := List.length (columns Z_train);
        y_test := y_test;
        Z_test := Z_test |}.

(** The state of the last loop: both learners, the generator, and the
    figures drawn so far. *)
Definition combined_state : Type := (learner * learner * Rng * list figure)%type.

(** [[
for epoch in range(N_EPOCH_COMBINED):
    clf, adv = train(clf, adv, train_loader, clf_criterion, adv_criterion,
                     clf_adv_criterion, clf_optimizer, adv_optimizer)
    with torch.no_grad():
        clf_pred = clf(test_data.X)
        adv_pred = adv(clf_pred)
    y_post_clf = pd.Series(clf_pred.numpy().ravel(), index=y_test.index)
    Z_post_adv = pd.DataFrame(adv_pred.numpy(), columns=Z_test.columns)
    if epoch % (N_EPOCH_COMBINED/10) == 0:
        plot_dists(y_test, Z_test, y_post_clf, Z_post_adv, epoch)
]] *)
Definition combined_epoch (d : prepared) (s : combined_state) (epoch : nat)
  : result combined_state :=
  let '(clf, adv, g, figs) := s in
  '(clf', adv', g1) <- train clf adv (train_loader d) BCELoss BCELoss BCELoss_none g ;;
  '(clf_pred, g2) <- forward (out (net clf')) g1 (ds_X (test_data d)) ;;
  '(adv_pred, g3) <- forward (out (net adv')) g2 clf_pred ;;
  let y_post_clf := List.concat clf_pred in
  let Z_post_adv := List.concat adv_pred in
  if Nat.eqb (epoch mod (N_EPOCH_COMBINED / 10)) 0
  then fig <- plot_dists (y_test d) (Z_test d) y_post_clf (Some Z_post_adv) (Some epoch) ;;
       Ok (clf', adv', g3, figs ++ [fig])
  else Ok (clf', adv', g3, figs).

(** The cells after the data is prepared, from the generator [g]. *)
Definition training_cells (d : prepared) (g : Rng) : result (list figure) :=
  (* clf = Classifier(X_train.shape[1]); clf_optimizer = optim.Adam(..) *)
  let (clf_module, g1) := Classifier (n_features d) 32 (2#10) g in
  let clf := {| net := clf_module; optimizer := Adam |} in
  (* for epoch in range(N_CLF_EPOCHS): clf = pretrain_classifier(..) *)
  '(clf, g2) <- for_epochs N_CLF_EPOCHS
                  (fun s _ => pretrain_classifier (fst s) (train_loader d) BCELoss (snd s))
                  (clf, g1) ;;
  (* with torch.no_grad(): pre_clf_test = clf(test_data.X) *)
  '(pre_clf_test, g3) <- forward (out (net clf)) g2 (ds_X (test_data d)) ;;
  let y_pre_clf := List.concat pre_clf_test in
  fig1 <- plot_dists (y_test d) (Z_test d) y_pre_clf None None ;;
  (* adv = Adverserial(Z_train.shape[1]); adv_optimizer = optim.Adam(..) *)
  let (adv_module, g4) := Adverserial (n_sensitive d) 32 g3 in
  let adv := {| net := adv_module; optimizer := Adam |} in
  (* for epoch in range(N_ADV_EPOCHS): pretrain_adverserial(..) *)
  '(adv, g5) <- for_epochs N_ADV_EPOCHS
                  (fun s _ => pretrain_adverserial (fst s) (net clf) (train_loader d)
                                BCELoss (snd s))
                  (adv, g4) ;;
  (* with torch.no_grad(): pre_adv_test = adv(pre_clf_test) *)
  '(pre_adv_test, g6) <- forward (out (net adv)) g5 pre_clf_test ;;
  fig2 <- plot_dists (y_test d) (Z_test d) y_pre_clf
            (Some (List.concat pre_adv_test)) None ;;
  '(_, _, _, figs) <- for_epochs N_EPOCH_COMBINED (combined_epoch d)
                        (clf, adv, g6, [fig1; fig2]) ;;
  Ok figs.

(** The notebook, run from top to bottom in a session whose generators are
    in the state [gen]: what it shows. *)
Definition notebook (read_csv : filesystem) (gen : generators) : result (list figure) :=
  let gen' := seed_cell gen in
  d <- data_cells read_csv ;;
  training_cells d (torch_rng gen').

End Notebook.

(** ** The words of the specification, for the metrics *)

(** The samples of group [g]: the pairs of a prediction and its group. *)
Definition group_members (y_pred : list Q) (z_values : list Z) (g : Z) : list (Q * Z) :=
  filter (fun s => Z.eqb (snd s) g) (combine y_pred z_values).

(** "the fraction of samples in group g whose prediction exceeds t" *)
Definition positive_rate (y_pred : list Q) (z_values : list Z) (t : Q) (g : Z) : npfloat :=
  let members := group_members y_pred z_values g in
  let positives := filter (fun s => Qltb t (fst s)) members in
  fdiv (Fin (inject_Z (Z.of_nat (List.length positives))))
       (Fin (inject_Z (Z.of_nat (List.length members)))).

(** "the group mean of the raw prediction scores" *)
Definition score_mean (y_pred : list Q) (z_values : list Z) (g : Z) : npfloat :=
  series_mean (map fst (group_members y_pred z_values g)).


(** A value in lowest terms. *)
Definition canonical (v : npfloat) : Prop :=
  match v with
  | Fin q => Qred q = q
  | _ => True
  end.

(** What a rate or a quotient of rates can be: NaN, plus infinity, or a
    number that is not negative. *)
Definition nonneg (v : npfloat) : Prop :=
  match v with
  | Fin q => 0 <= q
  | NZero => False
  | NInf => False
  | _ => True
  end.


(** ** The words of the specification, for [load_GEN_data] *)

(** One entry of a column of the file. *)
Inductive cell : Type :=
| IntCell (z : Z)
| FloatCell (q : Q)
| BoolCell (b : bool)
| StrCell (s : string)
| Missing.

Definition cells (c : column) : list cell :=
  match c with
  | IntCol v => map IntCell v
  | FloatCol v => map (fun o => match o with Some q => FloatCell q | None => Missing end) v
  | BoolCol v => map BoolCell v
  | ObjCol v => map (fun o => match o with Some s => StrCell s | None => Missing end) v
  end.

(** "1 exactly on the rows whose CSV 'protected' value equals 'B' and 0 on
    every other row" *)
Definition flag_B (x : cell) : Z :=
  match x with
  | StrCell s => if String.eqb s "B" then 1%Z else 0%Z
  | _ => 0%Z
  end.

(** "the remaining columns": those that are neither the target nor the
    protected attribute. *)
Definition is_feature (label : string) : bool :=
  negb (String.eqb label "target" || String.eqb label "protected").

(** The indicator column of one level of an object column. *)
Definition indicator (v : list (option string)) (level : string) : column :=
  IntCol (map (fun x => match x with
                        | StrCell s => if String.eqb s level then 1%Z else 0%Z
                        | _ => 0%Z
                        end) (cells (ObjCol v))).

(** ** A library to run the model on

    A small instance of [Library] over the rationals: a rational squashing
    function for the sigmoid, a rational lower bound of the logarithm,
    forward differences for the gradient, plain gradient descent for Adam's
    arithmetic, generators that count their draws, no shuffling and no
    dropping.  It serves to evaluate the definitions on concrete inputs. *)

Definition rational_sigmoid (x : Q) : Q :=
  Qred ((1#2) + x / (2 * (1 + Qabs x))).

Definition rational_ln (x : Q) : Q :=
  if Qltb 0 x then Qred (1 - 1 / x) else -100.

Fixpoint bump (i : nat) (h : Q) (v : list Q) : list Q :=
  match v, i with
  | [], _ => []
  | x :: v', O => (x + h) :: v'
  | x :: v', S i' => x :: bump i' h v'
  end.

Definition difference_quotient (loss : list layer -> result Q) (p : list layer)
  : list Q :=
  let v := parameters p in
  let h := 1#8 in
  match loss p with
  | Raise _ => map (fun _ => 0) v
  | Ok base =>
      map (fun i => match loss (set_parameters p (bump i h v)) with
                    | Ok q => Qred ((q - base) / h)
                    | Raise _ => 0
                    end) (seq 0 (List.length v))
  end.

Fixpoint descend (rate : Q) (v g : list Q) : list Q :=
  match v, g with
  | x :: v', d :: g' => Qred (x - rate * d) :: descend rate v' g'
  | _, _ => v
  end.

Definition halves (n : nat) : result (list nat * list nat) :=
  Ok (seq 0 (n / 2), seq (n / 2) (n - n / 2)).

Definition matching (y : list Z) (p : list bool) : npfloat :=
  series_mean (map (fun s => b2q (Z.eqb (fst s) (b2z (snd s)))) (combine y p)).

#[export] Instance rational_library : Library := {|
  Rng := nat;
  manual_seed := Z.to_nat;
  init_linear := fun i o g =>
    ((repeat (repeat (1 # Pos.of_nat (2 + g)) i) o, repeat 0 o), S g);
  bernoulli := fun _ n g => (repeat true n, S g);
  randperm := fun n g => (seq 0 n, S g);
  sigmoid := rational_sigmoid;
  ln := rational_ln;
  autograd := difference_quotient;
  Moments := unit;
  adam_init := tt;
  adam_update := fun _ m v g => (descend (1#10) v g, m);
  NpRng := nat;
  np_seed := Z.to_nat;
  train_test_split := fun _ _ _ n => halves n;
  standard_scale := fun _ df => as_matrix df;
  roc_auc_score := fun _ _ => Ok (Fin (1#2));
  accuracy_score := fun y p => Ok (matching y p)
|}.


(** "malformed input": the ways the input of [load_GEN_data] can make one of
    the operations it calls raise, with the exception raised. *)
Inductive malformed (read_csv : filesystem) (path : string) : exn -> Prop :=
| unreadable (e : exn) :
    read_csv path = Raise e ->
    malformed read_csv path e
| no_protected (df : DataFrame) :
    read_csv path = Ok df ->
    has_column "protected" df = false ->
    malformed read_csv path (KeyError "protected")
| no_target (df : DataFrame) :
    read_csv path = Ok df ->
    has_column "protected" df = true ->
    has_column "target" df = false ->
    malformed read_csv path (KeyError "target")
| target_not_int (df : DataFrame) (target : column) (e : exn) :
    read_csv path = Ok df ->
    has_column "protected" df = true ->
    getitem df "target" = Ok target ->
    astype_int target = Raise e ->
    malformed read_csv path e.

(** A file as the notebook expects it. *)
Definition example_frame : DataFrame :=
  [("x1"%string, FloatCol [Some (1#2); Some (3#2); Some (-2#1); Some 0]);
   ("protected"%string, ObjCol [Some "A"%string; Some "B"%string; None; Some "B"%string]);
   ("colour"%string,
    ObjCol [Some "red"%string; Some "blue"%string; Some "green"%string; Some "red"%string]);
   ("target"%string, IntCol [1%Z; 0%Z; 1%Z; 0%Z])].

Definition example_files : filesystem :=
  fun path =>
    if String.eqb path "data/generated.data" then Ok example_frame
    else if String.eqb path "data/no-target.data"
         then Ok [("protected"%string, ObjCol [Some "A"%string])]
         else Raise (OSError path).

(** ** The words of the specification, for the training *)

Section TrainingWords.

Context {L : Library}.




(** One step of fitting the adversary to predict [z] from the classifier's
    output [p_y]: no [x] comes in. *)
Definition adversary_fit (adv : learner) (g : Rng) (p_y z : tensor)
  : result (learner * Rng) :=
  let adv0 := {| net := zero_grad (net adv); optimizer := optimizer adv |} in
  '(p_z, g') <- forward (out (net adv)) g p_y ;;
  loss <- BCELoss p_z z ;;
  Ok (backward_step adv0 (fun phi => '(p, _) <- forward phi g p_y ;; BCELoss p z), g').

(** The gradient of the classifier loss on the batch [b], with respect to
    the parameters of the classifier: [g_last] is the generator state the
    forward pass of the classifier on [b] starts from, [adv] the adversary
    and [g_end] the generator state its forward pass starts from. *)
Definition classifier_gradient (clf adv : list layer) (g_last g_end : Rng)
    (b : batch) : list Q :=
  let '(x, y, z) := b in
  autograd (fun theta =>
              '(py, _) <- forward theta g_last x ;;
              clf_loss_value BCELoss BCELoss_none adv g_end py y z)
           clf.

(** One Adam step of the classifier on that gradient alone. *)
Definition classifier_update (clf : learner) (adv : list layer)
    (g_last g_end : Rng) (b : batch) : learner :=
  let G := classifier_gradient (out (net clf)) adv g_last g_end b in
  let (o, m) := adam_step (optimizer clf) {| out := out (net clf); grad := Grad G |} G in
  {| net := m; optimizer := o |}.

(** The state [train] starts its loop in. *)
Definition train_start (clf adv : learner) (data_loader : DataLoader) (g : Rng)
  : train_state :=
  {| ts_clf := clf; ts_adv := adv; ts_rng := snd (batches_of data_loader g);
     ts_vars := None |}.

End TrainingWords.

(** ** Small networks and data to run the training on *)

Definition small_clf : learner (L := rational_library) :=
  {| net := {| out := [Linear 2 1 [[1#2; -1#4]] [0]]; grad := NoGrad |};
     optimizer := Adam |}.

Definition small_adv : learner (L := rational_library) :=
  {| net := {| out := [Linear 1 1 [[1]] [0]]; grad := NoGrad |};
     optimizer := Adam |}.

Definition small_data : GenDataset :=
  {| ds_X := [[1; 0]; [0; 1]; [1; 1]; [2; 1]];
     ds_y := [[1]; [0]; [1]; [0]];
     ds_Z := [[0]; [1]; [1]; [0]] |}.

(** Two batches of two samples. *)
Definition small_loader : DataLoader :=
  {| dataset := small_data; batch_size := 2%positive; shuffle := true; drop_last := true |}.

(** The loader of the notebook on these four samples: no batch of 32. *)
Definition short_loader : DataLoader :=
  {| dataset := small_data; batch_size := 32%positive; shuffle := true; drop_last := true |}.

(** ** Words for further properties of the metrics *)

(** How many samples group [g] has, and how many of them are predicted
    above [t]. *)
Definition group_size (y_pred : list Q) (z_values : list Z) (g : Z) : nat :=
  List.length (group_members y_pred z_values g).

Definition group_positives (y_pred : list Q) (z_values : list Z) (t : Q) (g : Z)
  : nat :=
  List.length (filter (fun s => Qltb t (fst s)) (group_members y_pred z_values g)).

(** The samples whose group is 0 or 1. *)
Definition binary_samples (y_pred : list Q) (z_values : list Z) : list (Q * Z) :=
  filter (fun s => (Z.eqb (snd s) 0 || Z.eqb (snd s) 1)%bool) (combine y_pred z_values).

(** The predictions of the (label, group) cell: those of the samples whose
    label is [label] and whose group is [g]. *)
Fixpoint cell_predictions (y_test : list Z) (y_pred : list Q) (z_values : list Z)
    (label g : Z) : list Q :=
  match y_test, y_pred, z_values with
  | l :: y_test', p :: y_pred', z :: z_values' =>
      if (Z.eqb label l && Z.eqb g z)%bool
      then p :: cell_predictions y_test' y_pred' z_values' label g
      else cell_predictions y_test' y_pred' z_values' label g
  | _, _, _ => []
  end.

(** A rate: NaN, or a number from 0 to 1. *)
Definition is_rate (r : npfloat) : Prop :=
  r = NaN \/ exists q, r = Fin q /\ 0 <= q <= 1.

(** Two rates that add up to one, or are both NaN. *)
Definition complementary (a b : npfloat) : Prop :=
  (a = NaN /\ b = NaN) \/ exists qa qb, a = Fin qa /\ b = Fin qb /\ qa + qb == 1.

(** ** Words for further properties of [load_GEN_data] *)

(** The number of rows of a column, and a frame all of whose columns have
    [n] rows, as every frame of [read_csv] is. *)
Definition rows (c : column) : nat := List.length (cells c).

Definition rectangular (n : nat) (df : DataFrame) : Prop :=
  Forall (fun lc => rows (snd lc) = n) df.

(** The order of strings by which the levels are sorted. *)
Definition string_lt (a b : string) : Prop := String.compare a b = Lt.

(** The entry of an integer column at row [i]. *)
Definition int_at (c : column) (i : nat) : Z :=
  match c with
  | IntCol v => nth i v 0%Z
  | _ => 0%Z
  end.

(** The sum over the columns of a frame of their entries at row [i]. *)
Definition row_sum (df : DataFrame) (i : nat) : Z :=
  fold_right Z.add 0%Z (map (fun lc => int_at (snd lc) i) df).


(** ** The density plots of [plot_dists]

    [plot_dists] draws, for each value of a column of [subplot_df], the
    density of the predictions of the rows with that value.  What is drawn
    is kept here as data: one curve per group, with its label and the
    predictions it is estimated from. *)

(** [{1: 'B', 0: 'A'}], as [Series.map] applies it: what is no key maps to
    a missing value. *)
Definition label_AB (z : Z) : option string :=
  if Z.eqb z 1 then Some "B"%string
  else if Z.eqb z 0 then Some "A"%string
  else None.

(** [[
    subplot_df = (
        Z_true
        .assign(protected=lambda x: x['protected'].map({1: 'B', 0: 'A'}))
        .assign(y_pred=y_pred)
        .assign(y_true=y_true)
    )
]] *)
Definition subplot_df (y_true : list Z) (Z_true : DataFrame) (y_pred : list Q)
  : result DataFrame :=
  prot <- getitem Z_true "protected" ;;
  z <- int_values prot ;;
  Ok (assign (assign (assign Z_true "protected" (ObjCol (map label_AB z)))
                "y_pred" (FloatCol (map Some y_pred)))
        "y_true" (IntCol y_true)).

(** The order of the values of one column. *)
Definition cell_compare (a b : cell) : comparison :=
  match a, b with
  | IntCell x, IntCell y => Z.compare x y
  | FloatCell x, FloatCell y => Qcompare x y
  | BoolCell x, BoolCell y => Bool.compare x y
  | StrCell x, StrCell y => String.compare x y
  | Missing, Missing => Eq
  | Missing, _ => Lt
  | _, Missing => Gt
  | _, _ => Eq
  end.

Definition cell_eqb (a b : cell) : bool :=
  match a, b with
  | Missing, _ => false
  | _, Missing => false
  | _, _ => match cell_compare a b with Eq => true | _ => false end
  end.

Fixpoint insert_key (k : cell) (keys : list cell) : list cell :=
  match keys with
  | [] => [k]
  | k' :: keys' =>
      match cell_compare k k' with
      | Lt => k :: keys
      | Eq => keys
      | Gt => k' :: insert_key k keys'
      end
  end.

(** The keys of [groupby]: the distinct values in increasing order, missing
    values left out. *)
Fixpoint group_keys (l : list cell) : list cell :=
  match l with
  | [] => []
  | Missing :: l' => group_keys l'
  | k :: l' => insert_key k (group_keys l')
  end.

(** The entries of a list where the mask is true. *)
Fixpoint keep {A : Type} (mask : list bool) (l : list A) : list A :=
  match mask, l with
  | b :: mask', a :: l' => if b then a :: keep mask' l' else keep mask' l'
  | _, _ => []
  end.

Definition column_keep (mask : list bool) (c : column) : column :=
  match c with
  | IntCol v => IntCol (keep mask v)
  | FloatCol v => FloatCol (keep mask v)
  | BoolCol v => BoolCol (keep mask v)
  | ObjCol v => ObjCol (keep mask v)
  end.

(** [df.groupby(col)]: for each key, the rows of the frame with that value
    in the column. *)
Definition groupby (df : DataFrame) (col : string) : result (list (cell * DataFrame)) :=
  key <- getitem df col ;;
  Ok (map (fun k =>
             (k, map (fun lc => (fst lc, column_keep (map (cell_eqb k) (cells key)) (snd lc)))
                     df))
          (group_keys (cells key))).

(** [[
def _subplot(subplot_df, col, ax):
    for label, df in subplot_df.groupby(col):
        sns.kdeplot(df['y_pred'], ax=ax, label=label, shade=True)
]]
    The curves, each with its label and the Series it is drawn from. *)
Definition _subplot (subplot_df : DataFrame) (col : string)
  : result (list (cell * column)) :=
  groups <- groupby subplot_df col ;;
  mapM (fun g => y <- getitem (snd g) "y_pred" ;; Ok (fst g, y)) groups.

(** The predictions of the rows whose entry in the file column [prot]
    satisfies [f]. *)
Definition predictions_where (f : cell -> bool) (prot : column) (y_pred : list Q)
  : list (option Q) :=
  map (fun s => Some (snd s)) (filter (fun s => f (fst s)) (combine (cells prot) y_pred)).

Definition is_B (x : cell) : bool :=
  match x with
  | StrCell s => String.eqb s "B"
  | _ => false
  end.

(** ** Batches and shapes *)

Section ShapeWords.

Context {L : Library}.

(** The positions a loader goes through in one pass, in its order. *)
Definition loader_order (dl : DataLoader) (g : Rng) : list nat :=
  let n := List.length (ds_X (dataset dl)) in
  fst (if shuffle dl then randperm n g else (seq 0 n, g)).

(** The batch of the rows of a data set at the positions [idx]. *)
Definition batch_at (ds : GenDataset) (idx : list nat) : batch :=
  (take [] idx (ds_X ds), take [] idx (ds_y ds), take [] idx (ds_Z ds)).

(** A batch of [n] samples. *)
Definition batch_rows (n : nat) (b : batch) : Prop :=
  let '(x, y, z) := b in
  List.length x = n /\ List.length y = n /\ List.length z = n.

(** A tensor of two dimensions whose rows have [n] elements. *)
Definition width (n : nat) (t : tensor) : Prop :=
  Forall (fun row => List.length row = n) t.

(** What torch ensures of [nn.Linear(i, o)]: a weight of [o] rows of [i]
    elements and a bias of [o] elements. *)
Definition linear_shape (i o : nat) (g : Rng) : Prop :=
  let '(w, b) := fst (init_linear i o g) in
  List.length w = o /\ width i w /\ List.length b = o.

Definition well_initialised : Prop :=
  forall (i o : nat) (g : Rng), linear_shape i o g.

(** Two states of [train] that differ at most in gradient buffers: in those
    of the classifier, and, before the first batch, in those of the
    adversary. *)
Definition same_but_grads (s s' : train_state) : Prop :=
  out (net (ts_clf s)) = out (net (ts_clf s'))
  /\ optimizer (ts_clf s) = optimizer (ts_clf s')
  /\ out (net (ts_adv s)) = out (net (ts_adv s'))
  /\ optimizer (ts_adv s) = optimizer (ts_adv s')
  /\ ts_rng s = ts_rng s'
  /\ ts_vars s = ts_vars s'
  /\ (ts_vars s = None \/ grad (net (ts_adv s)) = grad (net (ts_adv s'))).

(** Two runs that end alike: with the same exception, or in states that
    differ at most in gradient buffers. *)
Definition agree (r r' : result train_state) : Prop :=
  match r, r' with
  | Ok t, Ok t' => same_but_grads t t'
  | Raise e, Raise e' => e = e'
  | _, _ => False
  end.

End ShapeWords.

(** ** A library to run the whole notebook on

    An instance of [Library] in which nothing moves: the weights start at
    zero, the dropout drops every element, the gradients vanish and the
    optimizer leaves the parameters where they are.  With it the notebook,
    whose networks have 32 hidden units, can be evaluated from its first
    cell to its last. *)

Definition still_library : Library := {|
  Rng := unit;
  manual_seed := fun _ => tt;
  init_linear := fun i o _ => ((repeat (repeat 0 i) o, repeat 0 o), tt);
  bernoulli := fun _ n _ => (repeat false n, tt);
  randperm := fun n _ => (seq 0 n, tt);
  sigmoid := fun _ => 1;
  ln := fun _ => 0;
  autograd := fun _ p => map (fun _ => 0) (parameters p);
  Moments := unit;
  adam_init := tt;
  adam_update := fun _ m v _ => (v, m);
  NpRng := unit;
  np_seed := fun _ => tt;
  train_test_split := fun _ _ _ n => halves n;
  standard_scale := fun _ df => as_matrix df;
  roc_auc_score := fun _ _ => Ok (Fin (1#2));
  accuracy_score := fun y p => Ok (matching y p)
|}.

(** A file of 64 samples with one feature: enough for one batch of 32 in
    the training half. *)
Definition still_files : filesystem :=
  fun _ =>
    Ok [("x"%string, IntCol (repeat 1%Z 64));
        ("protected"%string,
         ObjCol (List.concat (repeat [Some "A"%string; Some "B"%string] 32)));
        ("target"%string, IntCol (List.concat (repeat [0%Z; 0%Z; 1%Z; 1%Z] 16)))].

(** ** What the training relies on *)

Section ContractWords.

Context {L : Library}.







End ContractWords.
(** ** Properties of the metrics *)

Arguments Qred _ : simpl never.
Arguments Qdiv _ _ : simpl never.
Arguments Qmult _ _ : simpl never.
Arguments Qplus _ _ : simpl never.
Arguments Qminus _ _ : simpl never.
Arguments Qopp _ : simpl never.
Arguments Qinv _ : simpl never.
Arguments Qle_bool _ _ : simpl never.
Arguments Qeq_bool _ _ : simpl never.
Arguments inject_Z _ : simpl never.

Lemma Qltb_lt (a b : Q) : Qltb a b = true <-> a < b.
Proof.
  unfold Qltb. rewrite negb_true_iff.
  destruct (Qle_bool b a) eqn:E.
  - apply Qle_bool_iff in E. split; [discriminate | intro H; exfalso; lra].
  - split; [intros _ | reflexivity].
    apply Qnot_le_lt. intro H. apply Qle_bool_iff in H. congruence.
Qed.

Lemma Qeq_bool_false (a b : Q) : Qeq_bool a b = false <-> ~ a == b.
Proof.
  split.
  - intros E H. apply Qeq_bool_iff in H. congruence.
  - intros H. destruct (Qeq_bool a b) eqn:E; [|reflexivity].
    apply Qeq_bool_iff in E. contradiction.
Qed.

Lemma fin_eq (a b : Q) : a == b -> fin a = fin b.
Proof. intros H. unfold fin. f_equal. apply Qred_complete, H. Qed.

Lemma Qred_idem (q : Q) : Qred (Qred q) = Qred q.
Proof. apply Qred_complete, Qred_correct. Qed.

Lemma fin_canonical (q : Q) : canonical (fin q).
Proof. simpl. apply Qred_idem. Qed.


Lemma Qpos_of_nonneg (x : Q) : 0 <= x -> ~ x == 0 -> 0 < x.
Proof.
  intros H N. apply Qle_lteq in H. destruct H as [H|H]; [exact H|].
  symmetry in H. contradiction.
Qed.

Lemma Qltb_nonneg (x : Q) : 0 <= x -> Qltb x 0 = false.
Proof.
  intros H. destruct (Qltb x 0) eqn:E; [|reflexivity].
  apply Qltb_lt in E. lra.
Qed.

Lemma signbit_nonneg (a : npfloat) : nonneg a -> signbit a = false.
Proof.
  destruct a as [x| | | |]; simpl; auto; try contradiction.
  apply Qltb_nonneg.
Qed.

(** The quotient of two finite numbers that are not negative. *)
Lemma fdiv_fin_nonneg (x y : Q) :
  0 <= x -> 0 <= y ->
  fdiv (Fin x) (Fin y)
  = if Qeq_bool y 0 then (if Qeq_bool x 0 then NaN else PInf)
    else if Qeq_bool x 0 then Fin 0 else fin (x / y).
Proof.
  intros Hx Hy. unfold fdiv. cbn [signbit is_inf is_zero magnitude].
  rewrite (Qltb_nonneg Hx), (Qltb_nonneg Hy). reflexivity.
Qed.

Lemma zero_canonical (n : bool) : canonical (zero n).
Proof. destruct n; simpl; auto. Qed.

Lemma inf_canonical (n : bool) : canonical (inf n).
Proof. destruct n; simpl; auto. Qed.

Lemma fdiv_canonical (a b : npfloat) : canonical (fdiv a b).
Proof.
  unfold fdiv.
  destruct a as [x| | | |], b as [y| | | |]; try exact I;
    cbn [is_inf is_zero magnitude];
    repeat match goal with
           | |- context [if ?c then _ else _] => destruct c
           end;
    auto using zero_canonical, inf_canonical, fin_canonical; exact I.
Qed.

Lemma fdiv_nonneg (a b : npfloat) : nonneg a -> nonneg b -> nonneg (fdiv a b).
Proof.
  destruct a as [x| | | |], b as [y| | | |]; try contradiction; intros Ha Hb;
    cbn [nonneg] in Ha, Hb; try exact I.
  - rewrite (fdiv_fin_nonneg Ha Hb).
    destruct (Qeq_bool y 0) eqn:Ey, (Qeq_bool x 0) eqn:Ex; simpl; try lra; auto.
    apply Qeq_bool_false in Ey. apply Qeq_bool_false in Ex.
    rewrite Qred_correct. apply Qle_shift_div_l; [|lra].
    apply Qpos_of_nonneg; assumption.
  - unfold fdiv. cbn [signbit is_inf is_zero]. rewrite (Qltb_nonneg Ha). simpl. lra.
  - unfold fdiv. cbn [signbit is_inf is_zero]. rewrite (Qltb_nonneg Hb). exact I.
Qed.

(** The reciprocal of a quotient is the quotient the other way round. *)
Lemma fdiv_reciprocal (a b : npfloat) :
  nonneg a -> nonneg b -> fdiv (Fin 1) (fdiv a b) = fdiv b a.
Proof.
  destruct a as [x| | | |], b as [y| | | |]; try contradiction; intros Ha Hb;
    cbn [nonneg] in Ha, Hb; try reflexivity.
  - rewrite (fdiv_fin_nonneg Ha Hb), (fdiv_fin_nonneg Hb Ha).
    destruct (Qeq_bool y 0) eqn:Ey, (Qeq_bool x 0) eqn:Ex; try reflexivity.
    apply Qeq_bool_false in Ey. apply Qeq_bool_false in Ex.
    unfold fin at 1.
    assert (H0 : 0 <= Qred (x / y)).
    { rewrite Qred_correct. apply Qle_shift_div_l; [|lra].
      apply Qpos_of_nonneg; assumption. }
    rewrite (fdiv_fin_nonneg (x := 1) (y := Qred (x / y))) by (lra || exact H0).
    assert (E0 : Qeq_bool (Qred (x / y)) 0 = false).
    { apply Qeq_bool_false. rewrite Qred_correct. intro H.
      apply Ex. apply (Qmult_inj_r _ _ (/ y)).
      - intro Hz. apply Ey. rewrite <- (Qinv_involutive y), Hz. reflexivity.
      - rewrite Qmult_0_l. exact H. }
    rewrite E0. change (Qeq_bool 1 0) with false. cbv iota.
    apply fin_eq. rewrite Qred_correct. field. split; assumption.
  - unfold fdiv. cbn [signbit is_inf is_zero]. rewrite (Qltb_nonneg Ha). reflexivity.
  - unfold fdiv at 2. cbn [signbit is_inf is_zero]. rewrite (Qltb_nonneg Hb).
    cbn [xorb inf]. unfold fdiv at 2. cbn [signbit is_inf is_zero].
    rewrite (Qltb_nonneg Hb). reflexivity.
Qed.




(** Indexing with the key [z_values == g] keeps the predictions of group
    [g]. *)
Lemma boolean_index_group (y_pred : list Q) (z_values : list Z) (g : Z) :
  List.length y_pred = List.length z_values ->
  boolean_index y_pred (map (Z.eqb g) z_values)
  = Ok (map fst (group_members y_pred z_values g)).
Proof.
  unfold group_members. revert z_values.
  induction y_pred as [|a y IH]; intros [|c z] H; simpl in H; try discriminate.
  - reflexivity.
  - simpl. rewrite (IH z) by lia. simpl.
    rewrite (Z.eqb_sym c g). destruct (Z.eqb g c); reflexivity.
Qed.

Lemma boolean_index_short_key {A : Type} (s : list A) (key : list bool) :
  (List.length key < List.length s)%nat -> boolean_index s key = Raise IndexingError.
Proof.
  revert key. induction s as [|a s IH]; intros [|b key] H; simpl in *; try lia.
  - reflexivity.
  - rewrite IH by lia. reflexivity.
Qed.

Lemma Qsum_indicator (f : Q -> bool) (s : list Q) :
  Qsum (map (fun v => b2q (f v)) s)
  == inject_Z (Z.of_nat (List.length (filter f s))).
Proof.
  induction s as [|a s IH].
  - reflexivity.
  - cbn [map Qsum fold_right filter]. fold (Qsum (map (fun v => b2q (f v)) s)).
    rewrite IH. destruct (f a); cbn [b2q List.length].
    + rewrite Nat2Z.inj_succ. unfold Z.succ. rewrite inject_Z_plus.
      change (inject_Z 1) with 1. ring.
    + ring.
Qed.

Lemma inject_nat_zero (n : nat) : Qeq_bool (inject_Z (Z.of_nat n)) 0 = true <-> n = O.
Proof.
  rewrite Qeq_bool_iff. split.
  - intros H. destruct n; [reflexivity|].
    exfalso. unfold Qeq in H. simpl in H. lia.
  - intros ->. reflexivity.
Qed.

Lemma inject_nat_nonneg (n : nat) : 0 <= inject_Z (Z.of_nat n).
Proof. unfold Qle. simpl. lia. Qed.

(** The mean of the thresholded predictions of a Series is the fraction of
    its entries above the threshold. *)
Lemma series_mean_indicator (t : Q) (s : list Q) :
  series_mean (map (fun v => b2q (Qltb t v)) s)
  = fdiv (Fin (inject_Z (Z.of_nat (List.length (filter (Qltb t) s)))))
         (Fin (inject_Z (Z.of_nat (List.length s)))).
Proof.
  destruct s as [|a s].
  - reflexivity.
  - rewrite fdiv_fin_nonneg by apply inject_nat_nonneg.
    destruct (Qeq_bool (inject_Z (Z.of_nat (List.length (a :: s)))) 0) eqn:E.
    + apply inject_nat_zero in E. discriminate.
    + unfold series_mean. cbn [map]. rewrite <- (map_cons (fun v => b2q (Qltb t v))).
      rewrite length_map.
      destruct (Qeq_bool (inject_Z (Z.of_nat (List.length (filter (Qltb t) (a :: s))))) 0)
        eqn:Ek.
      * apply Qeq_bool_iff in Ek. change (Fin 0) with (fin 0). apply fin_eq.
        rewrite (Qsum_indicator (Qltb t) (a :: s)), Ek. unfold Qdiv. ring.
      * apply fin_eq. rewrite (Qsum_indicator (Qltb t) (a :: s)). reflexivity.
Qed.

Lemma filter_map_fst (f : Q -> bool) (l : list (Q * Z)) :
  filter f (map fst l) = map fst (filter (fun s => f (fst s)) l).
Proof.
  induction l as [|a l IH]; simpl; [reflexivity|].
  rewrite IH. destruct (f (fst a)); reflexivity.
Qed.

(** The thresholded mean of group [g], as [p_rule] computes it, is the
    positive rate of the group. *)
Lemma group_mean_rate (y_pred : list Q) (z_values : list Z) (t : Q) (g : Z) :
  series_mean (map (fun v => b2q (Qltb t v)) (map fst (group_members y_pred z_values g)))
  = positive_rate y_pred z_values t g.
Proof.
  rewrite series_mean_indicator. unfold positive_rate.
  rewrite filter_map_fst, !length_map. reflexivity.
Qed.

Lemma positive_rate_canonical y z t g : canonical (positive_rate y z t g).
Proof. apply fdiv_canonical. Qed.

Lemma positive_rate_nonneg y z t g : nonneg (positive_rate y z t g).
Proof. apply fdiv_nonneg; simpl; apply inject_nat_nonneg. Qed.

Lemma truthy_nonzero (t : Q) : ~ t == 0 -> truthy t = true.
Proof. intros H. unfold truthy. apply Qeq_bool_false in H. rewrite H. reflexivity. Qed.

Lemma truthy_zero (t : Q) : t == 0 -> truthy t = false.
Proof. intros H. unfold truthy. apply Qeq_bool_iff in H. rewrite H. reflexivity. Qed.

(** [p_rule] with a threshold that is not zero, in terms of the two
    positive rates. *)
Lemma p_rule_rates (y_pred : list Q) (z_values : list Z) (t : Q) :
  List.length y_pred = List.length z_values -> ~ t == 0 ->
  p_rule y_pred z_values t
  = Ok (let r1 := positive_rate y_pred z_values t 1 in
        let r0 := positive_rate y_pred z_values t 0 in
        fmul (np_min2 (fdiv r1 r0) (fdiv r0 r1)) (Fin 100)).
Proof.
  intros Hlen Ht. unfold p_rule.
  rewrite (truthy_nonzero Ht), !boolean_index_group by exact Hlen.
  cbn [bind]. rewrite !group_mean_rate.
  rewrite fdiv_reciprocal by apply positive_rate_nonneg.
  reflexivity.
Qed.







(** [p_rule] with the threshold zero: the predictions are not compared with
    anything, the means are those of the scores. *)
Lemma p_rule_scores (y_pred : list Q) (z_values : list Z) (t : Q) :
  List.length y_pred = List.length z_values -> t == 0 ->
  p_rule y_pred z_values t
  = Ok (let odds := fdiv (score_mean y_pred z_values 1) (score_mean y_pred z_values 0) in
        fmul (np_min2 odds (fdiv (Fin 1) odds)) (Fin 100)).
Proof.
  intros Hlen Ht. unfold p_rule.
  rewrite (truthy_zero Ht), !boolean_index_group by exact Hlen.
  reflexivity.
Qed.

Lemma p_rule_indicators (y_pred : list Q) (z_values : list Z) (t : Q) :
  List.length y_pred = List.length z_values -> ~ t == 0 ->
  p_rule y_pred z_values t
  = Ok (let odds := fdiv (positive_rate y_pred z_values t 1)
                         (positive_rate y_pred z_values t 0) in
        fmul (np_min2 odds (fdiv (Fin 1) odds)) (Fin 100)).
Proof.
  intros Hlen Ht. unfold p_rule.
  rewrite (truthy_nonzero Ht), !boolean_index_group by exact Hlen.
  cbn [bind]. rewrite !group_mean_rate. reflexivity.
Qed.

(** C8: [fp_rate], [fn_rate] and [p_rule] divide without a guard; there are
    inputs with an empty (label, group) cell, and inputs where no prediction
    of a group exceeds the threshold, on which the denominator is zero and
    the result is NaN. *)
Theorem unguarded_divisions :
  (exists (y_test : list Z) (y_pred : list Q) (z_values : list Z) (t : Q),
      filter (fun s => Z.eqb (fst s) 0 && Z.eqb (snd s) 0)%bool
             (combine y_test z_values) = []
      /\ div_len (count_gt [] t) 0 = NaN
      /\ exists r1, fp_rate y_test y_pred z_values t = Ok [(0%Z, NaN); (1%Z, r1)])
  /\ (exists (y_test : list Z) (y_pred : list Q) (z_values : list Z) (t : Q),
      filter (fun s => Z.eqb (fst s) 1 && Z.eqb (snd s) 0)%bool
             (combine y_test z_values) = []
      /\ div_len (count_le [] t) 0 = NaN
      /\ exists r1, fn_rate y_test y_pred z_values t = Ok [(0%Z, NaN); (1%Z, r1)])
  /\ (exists (y_pred : list Q) (z_values : list Z) (t : Q),
      ~ t == 0
      /\ List.length y_pred = List.length z_values
      /\ (forall s, In s (group_members y_pred z_values 0) -> fst s <= t)
      /\ positive_rate y_pred z_values t 0 = Fin 0
      /\ p_rule y_pred z_values t = Ok NaN).
Proof.
  split; [|split].
  - exists [1%Z; 0%Z], [1#10; 9#10], [0%Z; 1%Z], (1#2).
    repeat split. exists (Fin 1). reflexivity.
  - exists [0%Z; 1%Z], [1#10; 9#10], [0%Z; 1%Z], (1#2).
    repeat split. exists (Fin 0). reflexivity.
  - exists [1#10; 2#10], [0%Z; 1%Z], (1#2).
    split; [intro E; discriminate E|].
    split; [reflexivity|].
    split; [|split; reflexivity].
    intros s [<- | []]. cbn [fst]. unfold Qle. simpl. lia.
Qed.

(** C10: with the threshold zero [p_rule] compares the group means of the
    scores; with any other threshold, negative ones too, the group means of
    the indicator [prediction > t]; and there is an input on which the
    threshold zero and every positive threshold below one half give
    different results. *)
Theorem p_rule_threshold_zero_is_no_threshold
    (y_pred : list Q) (z_values : list Z) (t0 t : Q) :
  List.length y_pred = List.length z_values -> t0 == 0 -> ~ t == 0 ->
  p_rule y_pred z_values t0
  = Ok (let odds := fdiv (score_mean y_pred z_values 1) (score_mean y_pred z_values 0) in
        fmul (np_min2 odds (fdiv (Fin 1) odds)) (Fin 100))
  /\ p_rule y_pred z_values t
     = Ok (let odds := fdiv (positive_rate y_pred z_values t 1)
                            (positive_rate y_pred z_values t 0) in
           fmul (np_min2 odds (fdiv (Fin 1) odds)) (Fin 100))
  /\ exists (y' : list Q) (z' : list Z),
       List.length y' = List.length z'
       /\ forall eps, 0 < eps -> eps < 1#2 -> p_rule y' z' t0 <> p_rule y' z' eps.
Proof.
  intros Hlen H0 Ht. split; [|split].
  - apply p_rule_scores; assumption.
  - apply p_rule_indicators; assumption.
  - exists [1#2; 1], [0%Z; 1%Z]. split; [reflexivity|].
    intros eps Hpos Hhalf.
    rewrite (@p_rule_scores [1#2; 1] [0%Z; 1%Z] t0) by (reflexivity || assumption).
    rewrite (@p_rule_indicators [1#2; 1] [0%Z; 1%Z] eps) by (reflexivity || lra).
    unfold positive_rate, group_members. cbn [combine filter snd fst Z.eqb Pos.eqb].
    assert (E1 : Qltb eps (1#2) = true) by (apply Qltb_lt; exact Hhalf).
    assert (E2 : Qltb eps 1 = true) by (apply Qltb_lt; lra).
    rewrite E1, E2. vm_compute. discriminate.
Qed.

Lemma p_rule_threshold_zero_is_no_threshold_witness :
  p_rule [1#2; 1] [0%Z; 1%Z] 0 = Ok (Fin 50)
  /\ p_rule [1#2; 1] [0%Z; 1%Z] (-1#4) = Ok (Fin 100).
Proof.
  destruct (@p_rule_threshold_zero_is_no_threshold
              [1#2; 1] [0%Z; 1%Z] 0 (-1#4)) as (H1 & H2 & _).
  - reflexivity.
  - reflexivity.
  - intro E. discriminate E.
  - split; [exact H1 | exact H2].
Defined.

(** ** Properties of [load_GEN_data] *)

Lemma getitem_In (df : DataFrame) (label : string) (c : column) :
  getitem df label = Ok c -> In (label, c) df.
Proof.
  induction df as [|[l c0] df IH]; simpl; [discriminate|].
  destruct (String.eqb_spec l label) as [-> | Hne].
  - intros [= ->]. left. reflexivity.
  - intros H. right. apply IH, H.
Qed.

Lemma getitem_has_column (df : DataFrame) (label : string) :
  has_column label df = true <-> exists c, getitem df label = Ok c.
Proof.
  unfold has_column, columns.
  induction df as [|[l c0] df IH]; simpl.
  - split; [discriminate | intros [c H]; discriminate].
  - rewrite (String.eqb_sym label l).
    destruct (String.eqb l label); simpl.
    + split; [intros _; exists c0; reflexivity | reflexivity].
    + exact IH.
Qed.

Lemma getitem_missing (df : DataFrame) (label : string) :
  has_column label df = false -> getitem df label = Raise (KeyError label).
Proof.
  unfold has_column, columns.
  induction df as [|[l c0] df IH]; simpl; [reflexivity|].
  rewrite (String.eqb_sym label l).
  destruct (String.eqb l label); simpl; [discriminate | exact IH].
Qed.

Lemma drop_target_protected (df : DataFrame) :
  has_column "target" df = true -> has_column "protected" df = true ->
  drop df ["target"%string; "protected"%string]
  = Ok (filter (fun lc => is_feature (fst lc)) df).
Proof.
  intros Ht Hp. unfold drop. cbn [filter]. rewrite Ht, Hp. cbn [negb].
  f_equal. apply filter_ext. intros [l c]. unfold is_feature. cbn [existsb fst].
  rewrite orb_false_r. reflexivity.
Qed.

Lemma flags_are_flag_B (prot : column) :
  map b2z (eq_str prot "B") = map flag_B (cells prot).
Proof.
  destruct prot as [v|v|v|v]; cbn [eq_str cells]; rewrite !map_map;
    apply map_ext; intros a; try reflexivity.
  - destruct a; reflexivity.
  - destruct a as [s|]; [|reflexivity]. cbn [flag_B].
    destruct (String.eqb s "B"); reflexivity.
Qed.

(** [load_GEN_data] on an input it can read, step by step. *)
Lemma load_GEN_data_ok (read_csv : filesystem) (path : string) (df : DataFrame)
    (prot target : column) (y : list Z) :
  read_csv path = Ok df ->
  getitem df "protected" = Ok prot ->
  getitem df "target" = Ok target ->
  astype_int target = Ok y ->
  load_GEN_data read_csv path
  = Ok (get_dummies (filter (fun lc => is_feature (fst lc)) df), y,
        [("protected"%string, IntCol (map flag_B (cells prot)))]).
Proof.
  intros Hr Hp Ht Hy. unfold load_GEN_data, loc_columns.
  rewrite Hr. cbn [bind mapM]. rewrite Hp. cbn [bind getitem String.eqb Ascii.eqb Bool.eqb].
  cbn [assign String.eqb Ascii.eqb Bool.eqb]. rewrite Ht. cbn [bind]. rewrite Hy. cbn [bind].
  rewrite drop_target_protected.
  - cbn [bind]. rewrite flags_are_flag_B. reflexivity.
  - apply getitem_has_column. eauto.
  - apply getitem_has_column. eauto.
Qed.

(** Whatever [load_GEN_data] returns, it returns on such an input. *)
Lemma load_GEN_data_inv (read_csv : filesystem) (path : string)
    (X : DataFrame) (y : list Z) (Zf : DataFrame) :
  load_GEN_data read_csv path = Ok (X, y, Zf) ->
  exists df prot target,
    read_csv path = Ok df
    /\ getitem df "protected" = Ok prot
    /\ getitem df "target" = Ok target
    /\ astype_int target = Ok y.
Proof.
  intros H. unfold load_GEN_data, loc_columns in H.
  destruct (read_csv path) as [df|e] eqn:Hr; [|discriminate].
  cbn [bind mapM] in H.
  destruct (getitem df "protected") as [prot|e] eqn:Hp; [|discriminate].
  cbn [bind getitem String.eqb Ascii.eqb Bool.eqb] in H.
  destruct (getitem df "target") as [target|e] eqn:Ht; [|discriminate].
  cbn [bind] in H.
  destruct (astype_int target) as [y'|e] eqn:Hy; [|discriminate].
  cbn [bind] in H.
  destruct (drop df _) as [d|e]; [|discriminate].
  cbn [bind] in H. injection H as _ <- _.
  exists df, prot, target. auto.
Qed.



Lemma dummy_is_indicator (v : list (option string)) (level : string) :
  IntCol (map (fun o => match o with
                        | Some s => b2z (String.eqb s level)
                        | None => 0%Z
                        end) v)
  = indicator v level.
Proof.
  unfold indicator. cbn [cells]. rewrite map_map. f_equal.
  apply map_ext. intros [s|]; reflexivity.
Qed.

(** The columns of [get_dummies]: the columns that are not objects, and the
    indicators of all levels but the first of those that are. *)
Lemma in_get_dummies (df : DataFrame) (label : string) (c : column) :
  In (label, c) (get_dummies df)
  <-> (In (label, c) df /\ is_object c = false)
      \/ (exists l v level,
             In (l, ObjCol v) df
             /\ In level (tl (levels_of v))
             /\ label = (l ++ "_" ++ level)%string
             /\ c = indicator v level).
Proof.
  unfold get_dummies. rewrite in_app_iff, filter_In, in_flat_map. cbn [snd].
  rewrite negb_true_iff.
  split; (intros [H|H]; [left; exact H | right]).
  - destruct H as ([l [v|v|v|v]] & Hin & Hd); cbn [snd fst] in Hd; try contradiction.
    unfold dummies_1d in Hd. apply in_map_iff in Hd.
    destruct Hd as (level & Heq & Hl). injection Heq as <- <-.
    exists l, v, level. auto using dummy_is_indicator.
  - destruct H as (l & v & level & Hin & Hl & -> & ->).
    exists (l, ObjCol v). split; [exact Hin|]. cbn [snd fst].
    unfold dummies_1d. apply in_map_iff. exists level.
    rewrite dummy_is_indicator. auto.
Qed.






(** ** Errors *)

Lemma malformed_raises (read_csv : filesystem) (path : string) (e : exn) :
  malformed read_csv path e -> load_GEN_data read_csv path = Raise e.
Proof.
  intros H. unfold load_GEN_data, loc_columns.
  destruct H as [e Hr | df Hr Hp | df Hr Hp Ht | df target e Hr Hp Ht Hy];
    rewrite Hr; cbn [bind mapM].
  - reflexivity.
  - rewrite (getitem_missing _ _ Hp). reflexivity.
  - apply getitem_has_column in Hp. destruct Hp as [prot Hp]. rewrite Hp.
    cbn [bind getitem String.eqb Ascii.eqb Bool.eqb].
    rewrite (getitem_missing _ _ Ht). reflexivity.
  - apply getitem_has_column in Hp. destruct Hp as [prot Hp]. rewrite Hp.
    cbn [bind getitem String.eqb Ascii.eqb Bool.eqb].
    rewrite Ht. cbn [bind]. rewrite Hy. reflexivity.
Qed.

(** C7: nothing is caught.  On a malformed input (a file that cannot be
    read, that lacks the column [protected] or the column [target], or
    whose target cannot be cast) [load_GEN_data] raises the very exception
    of the operation that failed and returns no result; and when the file is
    the one the notebook loads, the notebook as a whole ends with that
    exception. *)
Theorem load_GEN_data_propagates {L : Library} (read_csv : filesystem)
    (path : string) (e : exn) :
  malformed read_csv path e ->
  load_GEN_data read_csv path = Raise e
  /\ (forall r, load_GEN_data read_csv path <> Ok r)
  /\ (path = "data/generated.data"%string ->
      forall gen, notebook read_csv gen = Raise e).
Proof.
  intros H. pose proof (malformed_raises H) as E.
  split; [exact E|]. split.
  - intros r. rewrite E. discriminate.
  - intros -> gen. unfold notebook, data_cells. rewrite E. reflexivity.
Qed.

(** And it raises on malformed inputs only. *)
Lemma load_GEN_data_raises_only_malformed (read_csv : filesystem) (path : string)
    (e : exn) :
  load_GEN_data read_csv path = Raise e -> malformed read_csv path e.
Proof.
  intros H.
  destruct (read_csv path) as [df|e0] eqn:Hr.
  - destruct (has_column "protected" df) eqn:Hp.
    + destruct (getitem df "target") as [target|e1] eqn:Ht.
      * destruct (astype_int target) as [y|e2] eqn:Hy.
        -- apply getitem_has_column in Hp. destruct Hp as [prot Hp].
           rewrite (load_GEN_data_ok _ _ Hr Hp Ht Hy) in H. discriminate.
        -- assert (M : malformed read_csv path e2)
             by (eapply target_not_int; eassumption).
           apply malformed_raises in M.
           rewrite M in H. injection H as <-.
           eapply target_not_int; eassumption.
      * destruct (has_column "target" df) eqn:Hc.
        -- apply getitem_has_column in Hc. destruct Hc as [c Hc]. congruence.
        -- assert (M : malformed read_csv path (KeyError "target"))
             by (eapply no_target; eassumption).
           apply malformed_raises in M.
           rewrite M in H. injection H as <-.
           eapply no_target; eassumption.
    + assert (M : malformed read_csv path (KeyError "protected"))
        by (eapply no_protected; eassumption).
      apply malformed_raises in M.
      rewrite M in H. injection H as <-.
      eapply no_protected; eassumption.
  - assert (M : malformed read_csv path e0) by (apply unreadable; assumption).
    apply malformed_raises in M.
    rewrite M in H. injection H as <-. apply unreadable; assumption.
Qed.

Lemma load_GEN_data_propagates_witness :
  load_GEN_data example_files "data/no-target.data" = Raise (KeyError "target")
  /\ forall r, load_GEN_data example_files "data/no-target.data" <> Ok r.
Proof.
  destruct (@load_GEN_data_propagates rational_library example_files
              "data/no-target.data" (KeyError "target")) as (H1 & H2 & _).
  - apply (@no_target example_files "data/no-target.data"
             [("protected"%string, ObjCol [Some "A"%string])]); reflexivity.
  - split; [exact H1 | exact H2].
Defined.

(** ** Properties of the training *)

Unset Implicit Arguments.

Section TrainingFacts.

Context {L : Library}.












End TrainingFacts.


Section TrainingSteps.

Context {L : Library}.

Lemma adam_step_count (o : adam Moments) (m : module) (G : list Q) :
  step_count (fst (adam_step o m G)) = S (step_count o)
  /\ grad (snd (adam_step o m G)) = grad m.
Proof.
  unfold adam_step. destruct (adam_update _ _ _ _) as [v mo]. split; reflexivity.
Qed.

Lemma optimizer_step_after_backward (o : adam Moments) (m : module) (G : list Q) :
  exists G', optimizer_step o (accumulate m G) = adam_step o (accumulate m G) G'.
Proof. unfold optimizer_step. cbn [accumulate grad]. eexists. reflexivity. Qed.

(** The adversary of [train_body] is fitted as that of
    [pretrain_adverserial]: on [p_y] and [z]. *)
Lemma train_body_adversary (s : train_state) (x y z p_y : tensor) (g1 : Rng) :
  forward (out (net (ts_clf s))) (ts_rng s) x = Ok (p_y, g1) ->
  (s' <- train_body BCELoss s (x, y, z) ;; Ok (ts_adv s', ts_rng s'))
  = adversary_fit (ts_adv s) g1 p_y z.
Proof.
  intros Hf. unfold train_body, adversary_fit, backward_step.
  rewrite Hf. cbn [bind zero_grad out net optimizer].
  destruct (forward (out (net (ts_adv s))) g1 p_y) as [[p_adv g2]|e]; [|reflexivity].
  cbn [bind]. destruct (BCELoss p_adv z) as [loss|e]; [|reflexivity].
  cbn [bind]. destruct (optimizer_step _ _) as [o adv2]. reflexivity.
Qed.

Lemma pretrain_adverserial_body_fit (clf : module) (adv : learner)
    (g g1 : Rng) (x y z p_y : tensor) :
  forward (out clf) g x = Ok (p_y, g1) ->
  pretrain_adverserial_body clf BCELoss (adv, g) (x, y, z)
  = adversary_fit adv g1 p_y z.
Proof.
  intros Hf. unfold pretrain_adverserial_body, adversary_fit.
  rewrite Hf. reflexivity.
Qed.

Lemma Adverserial_first_layer (n_sensitive n_hidden : nat) (r : Rng) :
  exists w b rest,
    out (fst (Adverserial n_sensitive n_hidden r)) = Linear 1 n_hidden w b :: rest.
Proof.
  unfold Adverserial, new_linear.
  destruct (init_linear 1 n_hidden r) as [[w1 b1] r1].
  destruct (init_linear n_hidden n_hidden r1) as [[w2 b2] r2].
  destruct (init_linear n_hidden n_hidden r2) as [[w3 b3] r3].
  destruct (init_linear n_hidden n_sensitive r3) as [[w4 b4] r4].
  cbn [fst out]. eauto.
Qed.

Lemma Classifier_last_layer (n_features n_hidden : nat) (p_dropout : Q) (r : Rng) :
  exists front w b,
    out (fst (Classifier n_features n_hidden p_dropout r))
    = front ++ [Linear n_hidden 1 w b].
Proof.
  unfold Classifier, new_linear.
  destruct (init_linear n_features n_hidden r) as [[w1 b1] r1].
  destruct (init_linear n_hidden n_hidden r1) as [[w2 b2] r2].
  destruct (init_linear n_hidden n_hidden r2) as [[w3 b3] r3].
  destruct (init_linear n_hidden 1 r3) as [[w4 b4] r4].
  cbn [fst out].
  exists [Linear n_features n_hidden w1 b1; ReLU; Dropout p_dropout;
          Linear n_hidden n_hidden w2 b2; ReLU; Dropout p_dropout;
          Linear n_hidden n_hidden w3 b3; ReLU; Dropout p_dropout], w4, b4.
  reflexivity.
Qed.

Lemma forallb_existsb_negb {A : Type} (f : A -> bool) (l : list A) :
  existsb (fun a => negb (f a)) l = true -> forallb f l = false.
Proof.
  induction l as [|a l IH]; cbn [existsb forallb]; [discriminate|].
  destruct (f a); cbn [negb orb andb]; auto.
Qed.


(** C2: in [pretrain_adverserial] and in [train] the adversary is fitted on
    the classifier's output [p_y] and the protected attributes [z] alone,
    with the cross-entropy of [adv(p_y)] against [z] as its loss: two
    batches on which the classifier gives the same output fit it alike,
    whatever their features.  And the first layer of [Adverserial] is
    [Linear(1, n_hidden)]: it accepts rows of one number only, as the last
    layer of [Classifier], [Linear(n_hidden, 1)], makes them. *)
Theorem adversary_sees_only_classifier_output
    (s : train_state) (x y z p_y : tensor) (g1 : Rng) :
  forward (out (net (ts_clf s))) (ts_rng s) x = Ok (p_y, g1) ->
  pretrain_adverserial_body (net (ts_clf s)) BCELoss (ts_adv s, ts_rng s) (x, y, z)
    = adversary_fit (ts_adv s) g1 p_y z
  /\ (s' <- train_body BCELoss s (x, y, z) ;; Ok (ts_adv s', ts_rng s'))
     = adversary_fit (ts_adv s) g1 p_y z
  /\ (forall x' y' : tensor,
        forward (out (net (ts_clf s))) (ts_rng s) x' = Ok (p_y, g1) ->
        pretrain_adverserial_body (net (ts_clf s)) BCELoss (ts_adv s, ts_rng s) (x', y', z)
        = pretrain_adverserial_body (net (ts_clf s)) BCELoss (ts_adv s, ts_rng s) (x, y, z)
        /\ (s' <- train_body BCELoss s (x', y', z) ;; Ok (ts_adv s', ts_rng s'))
           = (s' <- train_body BCELoss s (x, y, z) ;; Ok (ts_adv s', ts_rng s')))
  /\ (forall (n_sensitive n_hidden : nat) (r : Rng),
        exists w b rest,
          out (fst (Adverserial n_sensitive n_hidden r)) = Linear 1 n_hidden w b :: rest)
  /\ (forall (n_sensitive n_hidden : nat) (r r' : Rng) (t : tensor),
        existsb (fun row => negb (Nat.eqb (List.length row) 1)) t = true ->
        forward (out (fst (Adverserial n_sensitive n_hidden r))) r' t
        = Raise (RuntimeError "size mismatch"))
  /\ (forall (n_features n_hidden : nat) (p_dropout : Q) (r : Rng),
        exists front w b,
          out (fst (Classifier n_features n_hidden p_dropout r))
          = front ++ [Linear n_hidden 1 w b]).
Proof.
  intros Hf. split; [|split; [|split; [|split; [|split]]]].
  - apply pretrain_adverserial_body_fit, Hf.
  - apply train_body_adversary, Hf.
  - intros x' y' Hf'. split.
    + rewrite (pretrain_adverserial_body_fit _ _ _ _ _ y z _ Hf).
      apply pretrain_adverserial_body_fit, Hf'.
    + rewrite (train_body_adversary _ _ y z _ _ Hf).
      apply train_body_adversary, Hf'.
  - apply Adverserial_first_layer.
  - intros n_sensitive n_hidden r r' t Ht.
    destruct (Adverserial_first_layer n_sensitive n_hidden r) as (w & b & rest & ->).
    unfold forward. cbn [sequential layer_forward].
    rewrite (forallb_existsb_negb _ _ Ht). reflexivity.
  - apply Classifier_last_layer.
Qed.

(** *** The loop of [train] *)

Lemma for_each_app {S A : Type} (body : S -> A -> result S) (l1 l2 : list A) (s : S) :
  for_each body (l1 ++ l2) s = (s1 <- for_each body l1 s ;; for_each body l2 s1).
Proof.
  revert s. induction l1 as [|a l1 IH]; intros s; cbn [app for_each bind].
  - reflexivity.
  - destruct (body s a) as [s'|e]; cbn [bind]; [apply IH | reflexivity].
Qed.

(** One batch: the parameters and the optimizer of the classifier stay, the
    adversary takes one step, and the loop variables are those of the
    batch. *)
Lemma train_body_step (s s' : train_state) (x y z : tensor) :
  train_body BCELoss s (x, y, z) = Ok s' ->
  out (net (ts_clf s')) = out (net (ts_clf s))
  /\ optimizer (ts_clf s') = optimizer (ts_clf s)
  /\ step_count (optimizer (ts_adv s')) = S (step_count (optimizer (ts_adv s)))
  /\ exists p_y, ts_vars s' = Some {| last_x := x; last_y := y; last_z := z;
                                      last_p_y := p_y; last_rng := ts_rng s |}.
Proof.
  unfold train_body.
  destruct (forward (out (net (ts_clf s))) (ts_rng s) x) as [[p_y g1]|e]; [|discriminate].
  cbn [bind].
  destruct (forward _ g1 p_y) as [[p_adv g2]|e]; [|discriminate].
  cbn [bind]. destruct (BCELoss p_adv z) as [loss|e]; [|discriminate].
  cbn [bind].
  match goal with
  | |- context [optimizer_step ?o (accumulate ?m ?G)] =>
      destruct (optimizer_step_after_backward o m G) as [G' E];
      rewrite E; pose proof (adam_step_count o (accumulate m G) G') as [Hc _];
      destruct (adam_step o (accumulate m G) G') as [o' adv2]
  end.
  intros [= <-]. cbn in *. eauto 6.
Qed.

Lemma train_loop_invariant (bs : list batch) (s s' : train_state) :
  for_each (train_body BCELoss) bs s = Ok s' ->
  out (net (ts_clf s')) = out (net (ts_clf s))
  /\ optimizer (ts_clf s') = optimizer (ts_clf s)
  /\ step_count (optimizer (ts_adv s'))
     = (step_count (optimizer (ts_adv s)) + List.length bs)%nat.
Proof.
  revert s. induction bs as [|[[x y] z] bs IH]; intros s; cbn [for_each List.length].
  - intros [= <-]. rewrite Nat.add_0_r. auto.
  - destruct (train_body BCELoss s (x, y, z)) as [s1|e] eqn:E1; [|discriminate].
    cbn [bind]. intros H. apply IH in H. apply train_body_step in E1.
    destruct H as (H1 & H2 & H3). destruct E1 as (E1 & E2 & E3 & _).
    rewrite H1, H2, H3, E1, E2, E3. repeat split. lia.
Qed.

(** After a loop over at least one batch the loop variables are those of
    the last batch. *)
Lemma train_loop_last (bs : list batch) (s s' : train_state) :
  for_each (train_body BCELoss) bs s = Ok s' ->
  (bs = [] /\ s' = s)
  \/ exists bs0 x y z s0 p_y,
       bs = bs0 ++ [(x, y, z)]
       /\ for_each (train_body BCELoss) bs0 s = Ok s0
       /\ ts_vars s' = Some {| last_x := x; last_y := y; last_z := z;
                               last_p_y := p_y; last_rng := ts_rng s0 |}.
Proof.
  intros H. destruct bs as [|b bs'] eqn:Ebs.
  - left. cbn in H. injection H as <-. auto.
  - right. rewrite <- Ebs in *.
    assert (Hne : bs <> []) by (rewrite Ebs; discriminate).
    destruct (exists_last Hne) as (bs0 & [[x y] z] & ->).
    rewrite for_each_app in H.
    destruct (for_each (train_body BCELoss) bs0 s) as [s0|e] eqn:E0; [|discriminate].
    cbn [bind for_each] in H.
    destruct (train_body BCELoss s0 (x, y, z)) as [s1|e] eqn:E1; [|discriminate].
    cbn [bind] in H. injection H as <-.
    apply train_body_step in E1. destruct E1 as (_ & _ & _ & p_y & Hv).
    exists bs0, x, y, z, s0, p_y. auto.
Qed.

(** The step after the loop: from loop variables, one Adam step of the
    classifier on the gradient of the loss on their batch; the adversary's
    parameters and optimizer stay. *)
Lemma train_classifier_step_update (s : train_state) (v : loop_vars)
    (clf' adv' : learner) (g' : Rng) :
  ts_vars s = Some v ->
  train_classifier_step BCELoss BCELoss_none s = Ok (clf', adv', g') ->
  clf' = classifier_update (ts_clf s) (out (net (ts_adv s))) (last_rng v) (ts_rng s)
           (last_x v, last_y v, last_z v)
  /\ out (net adv') = out (net (ts_adv s))
  /\ optimizer adv' = optimizer (ts_adv s)
  /\ g' = ts_rng s.
Proof.
  intros Hv. unfold train_classifier_step. rewrite Hv.
  destruct (clf_loss_value _ _ _ _ _ _ _) as [loss|e]; [|discriminate].
  cbn [bind].
  unfold classifier_update, classifier_gradient.
  assert (Hg : forall G, accumulate (zero_grad (net (ts_clf s))) G
                         = {| out := out (net (ts_clf s)); grad := Grad G |}).
  { intros G. unfold accumulate, zero_grad. cbn [out grad].
    destruct (grad (net (ts_clf s))); reflexivity. }
  rewrite Hg. unfold optimizer_step at 1. cbn [grad zero_grad out].
  destruct (adam_step _ _ _) as [o clf2].
  intros [= <- <- <-]. auto.
Qed.

End TrainingSteps.

Section TrainClaims.

Context {L : Library}.

Lemma train_unfold (clf adv : learner) (data_loader : DataLoader) (g : Rng) :
  train clf adv data_loader BCELoss BCELoss BCELoss_none g
  = (s <- for_each (train_body BCELoss) (fst (batches_of data_loader g))
            (train_start clf adv data_loader g) ;;
     train_classifier_step BCELoss BCELoss_none s).
Proof.
  unfold train, train_loop, train_start.
  destruct (batches_of data_loader g) as [bs g0]. reflexivity.
Qed.

(** C9, as amended: in every call to [train] that returns, the loader gave
    at least one batch; at every point of the loop the classifier's
    parameters and optimizer are those of the call and the adversary has
    taken one step per batch so far; and the classifier that is returned is
    the one of the call after one Adam step on the gradient of the loss on
    the last batch. *)
Theorem train_updates (clf adv : learner) (data_loader : DataLoader) (g g' : Rng)
    (clf' adv' : learner) :
  train clf adv data_loader BCELoss BCELoss BCELoss_none g = Ok (clf', adv', g') ->
  let bs := fst (batches_of data_loader g) in
  let start := train_start clf adv data_loader g in
  (forall bs1 bs2 s1,
      bs = bs1 ++ bs2 ->
      for_each (train_body BCELoss) bs1 start = Ok s1 ->
      out (net (ts_clf s1)) = out (net clf)
      /\ optimizer (ts_clf s1) = optimizer clf
      /\ step_count (optimizer (ts_adv s1))
         = (step_count (optimizer adv) + List.length bs1)%nat)
  /\ step_count (optimizer adv') = (step_count (optimizer adv) + List.length bs)%nat
  /\ step_count (optimizer clf') = S (step_count (optimizer clf))
  /\ exists bs0 b s0,
       bs = bs0 ++ [b]
       /\ for_each (train_body BCELoss) bs0 start = Ok s0
       /\ clf' = classifier_update clf (out (net adv')) (ts_rng s0) g' b.
Proof.
  intros H bs start. rewrite train_unfold in H. fold bs start in H.
  destruct (for_each (train_body BCELoss) bs start) as [s|e] eqn:Hloop; [|discriminate].
  cbn [bind] in H.
  pose proof (train_loop_invariant _ _ _ Hloop) as (I1 & I2 & I3).
  split; [|split; [|split]].
  - intros bs1 bs2 s1 _ H1. apply (train_loop_invariant _ _ _ H1).
  - destruct (train_loop_last _ _ _ Hloop)
      as [[_ ->] | (bs0 & x & y & z & s0 & p_y & Ebs & H0 & Hv)].
    + discriminate H.
    + destruct (train_classifier_step_update _ _ _ _ _ Hv H) as (_ & _ & -> & _).
      exact I3.
  - destruct (train_loop_last _ _ _ Hloop)
      as [[_ ->] | (bs0 & x & y & z & s0 & p_y & Ebs & H0 & Hv)].
    + discriminate H.
    + destruct (train_classifier_step_update _ _ _ _ _ Hv H) as (-> & _).
      unfold classifier_update.
      match goal with
      | |- context [adam_step ?o ?m ?G] =>
          pose proof (adam_step_count o m G) as [Hc _];
          destruct (adam_step o m G) as [o' m']
      end.
      cbn [optimizer fst] in *. rewrite Hc, I2. reflexivity.
  - destruct (train_loop_last _ _ _ Hloop)
      as [[_ ->] | (bs0 & x & y & z & s0 & p_y & Ebs & H0 & Hv)].
    + discriminate H.
    + destruct (train_classifier_step_update _ _ _ _ _ Hv H) as (-> & Ea & _ & ->).
      exists bs0, (x, y, z), s0. split; [exact Ebs|]. split; [exact H0|].
      rewrite Ea. cbn [last_rng last_x last_y last_z].
      unfold classifier_update. rewrite I1, I2. reflexivity.
Qed.

End TrainClaims.

(** C9 as stated fails: a call to [train] with a loader that gives no batch
    leaves [p_y] unbound and raises; it returns nothing and updates
    nothing. *)
Lemma train_without_batches_raises :
  ~ (forall (L : Library) (clf adv : learner) (data_loader : DataLoader) (g : Rng),
        exists clf' adv' g',
          train clf adv data_loader BCELoss BCELoss BCELoss_none g = Ok (clf', adv', g')
          /\ step_count (optimizer clf') = S (step_count (optimizer clf))).
Proof.
  intros H.
  destruct (H rational_library small_clf small_adv short_loader 1%nat)
    as (clf' & adv' & g' & E & _).
  vm_compute in E. discriminate E.
Qed.

Lemma train_updates_witness :
  exists clf' adv' g',
    train small_clf small_adv small_loader BCELoss BCELoss BCELoss_none 1%nat
    = Ok (clf', adv', g')
    /\ step_count (optimizer adv') = 2%nat
    /\ step_count (optimizer clf') = 1%nat.
Proof.
  destruct (train small_clf small_adv small_loader BCELoss BCELoss BCELoss_none 1%nat)
    as [[[clf' adv'] g']|e] eqn:E.
  - exists clf', adv', g'. split; [reflexivity|].
    destruct (train_updates small_clf small_adv small_loader 1%nat g' clf' adv' E)
      as (_ & Ha & Hc & _).
    split; [exact Ha | exact Hc].
  - vm_compute in E. discriminate E.
Defined.

Lemma adversary_sees_only_classifier_output_witness :
  pretrain_adverserial_body (net small_clf) BCELoss (small_adv, 1%nat)
    ([[1; 0]], [[1]], [[0]])
  = pretrain_adverserial_body (net small_clf) BCELoss (small_adv, 1%nat)
      ([[3; 4]], [[0]], [[0]]).
Proof.
  destruct (adversary_sees_only_classifier_output
              {| ts_clf := small_clf; ts_adv := small_adv; ts_rng := 1%nat;
                 ts_vars := None |}
              [[3; 4]] [[0]] [[0]] [[2#3]] 1%nat) as (_ & _ & H & _).
  - reflexivity.
  - apply (H [[1; 0]] [[1]]). reflexivity.
Defined.

(** ** Reproducibility *)




(** ** Further properties of the metrics *)

Lemma rate_value (k n : nat) :
  (k <= n)%nat ->
  fdiv (Fin (inject_Z (Z.of_nat k))) (Fin (inject_Z (Z.of_nat n)))
  = match n, k with
    | O, _ => NaN
    | _, O => Fin 0
    | _, _ => fin (inject_Z (Z.of_nat k) / inject_Z (Z.of_nat n))
    end.
Proof.
  intros Hle. rewrite fdiv_fin_nonneg by apply inject_nat_nonneg.
  destruct n as [|n].
  - assert (k = O) by lia. subst k. reflexivity.
  - destruct (Qeq_bool (inject_Z (Z.of_nat (S n))) 0) eqn:En.
    + apply inject_nat_zero in En. discriminate.
    + destruct k as [|k]; [reflexivity|].
      destruct (Qeq_bool (inject_Z (Z.of_nat (S k))) 0) eqn:Ek.
      * apply inject_nat_zero in Ek. discriminate.
      * reflexivity.
Qed.

Lemma inject_nat_pos (n : nat) : 0 < inject_Z (Z.of_nat (S n)).
Proof. unfold Qlt. simpl. lia. Qed.

Lemma inject_nat_le (k n : nat) :
  (k <= n)%nat -> inject_Z (Z.of_nat k) <= inject_Z (Z.of_nat n).
Proof. intros H. unfold Qle. simpl. lia. Qed.

Lemma group_positives_le (y_pred : list Q) (z_values : list Z) (t : Q) (g : Z) :
  (group_positives y_pred z_values t g <= group_size y_pred z_values g)%nat.
Proof. apply filter_length_le. Qed.

Lemma positive_rate_value (y_pred : list Q) (z_values : list Z) (t : Q) (g : Z) :
  positive_rate y_pred z_values t g
  = match group_size y_pred z_values g, group_positives y_pred z_values t g with
    | O, _ => NaN
    | _, O => Fin 0
    | n, k => fin (inject_Z (Z.of_nat k) / inject_Z (Z.of_nat n))
    end.
Proof.
  unfold positive_rate. cbv zeta.
  fold (group_positives y_pred z_values t g). fold (group_size y_pred z_values g).
  rewrite rate_value by apply group_positives_le.
  destruct (group_size y_pred z_values g), (group_positives y_pred z_values t g);
    reflexivity.
Qed.

Lemma Qeq_bool_pos (q : Q) : 0 < q -> Qeq_bool q 0 = false.
Proof. intros H. apply Qeq_bool_false. intro E. rewrite E in H. lra. Qed.

Lemma Qred_pos (q : Q) : 0 < q -> 0 < Qred q.
Proof. intros H. rewrite Qred_correct. exact H. Qed.

Lemma Qdiv_pos (a b : Q) : 0 < a -> 0 < b -> 0 < a / b.
Proof. intros Ha Hb. apply Qlt_shift_div_l; lra. Qed.

(** The smaller of a ratio of two positive numbers and its reciprocal. *)
Lemma ratio_min (a b : Q) :
  0 < a -> 0 < b ->
  exists m, np_min2 (fin (a / b)) (fin (b / a)) = Fin m
            /\ 0 < m <= 1 /\ (m == 1 <-> a == b).
Proof.
  intros Ha Hb. unfold fin. cbn [np_min2 fle magnitude].
  assert (Hx : 0 < a / b) by (apply Qdiv_pos; assumption).
  assert (Hy : 0 < b / a) by (apply Qdiv_pos; assumption).
  destruct (Qle_bool (Qred (a / b)) (Qred (b / a))) eqn:E.
  - exists (Qred (a / b)). split; [reflexivity|].
    apply Qle_bool_iff in E. rewrite !Qred_correct in *.
    assert (Hab : a <= b).
    { apply Qnot_lt_le. intro Hlt.
      assert (b / a < 1) by (apply Qlt_shift_div_r; lra).
      assert (1 < a / b) by (apply Qlt_shift_div_l; lra).
      lra. }
    split; [split; [exact Hx|]|].
    + apply Qle_shift_div_r; lra.
    + split; intro H.
      * assert (a == a / b * b) by (field; lra). rewrite H in H0. lra.
      * rewrite H. field. lra.
  - exists (Qred (b / a)). split; [reflexivity|].
    assert (E' : ~ Qred (a / b) <= Qred (b / a))
      by (intro H; apply Qle_bool_iff in H; congruence).
    rewrite !Qred_correct in *.
    assert (Hab : b <= a).
    { apply Qnot_lt_le. intro Hlt. apply E'.
      assert (a / b < 1) by (apply Qlt_shift_div_r; lra).
      assert (1 < b / a) by (apply Qlt_shift_div_l; lra).
      lra. }
    split; [split; [exact Hy|]|].
    + apply Qle_shift_div_r; lra.
    + split; intro H.
      * assert (b == b / a * a) by (field; lra). rewrite H in H0. lra.
      * rewrite H. field. lra.
Qed.

Lemma fmul_percent (m : Q) : 0 < m -> fmul (Fin m) (Fin 100) = fin (m * 100).
Proof.
  intros H. unfold fmul. cbn [signbit is_inf is_zero magnitude orb].
  rewrite (Qeq_bool_pos m H). reflexivity.
Qed.

(** The value of [min(r1/r0, r0/r1) * 100] for the rates [k1/n1] and
    [k0/n0]. *)
Lemma percent_of_rates (k1 n1 k0 n0 : nat) :
  (k1 <= n1)%nat -> (k0 <= n0)%nat ->
  let rate k n := fdiv (Fin (inject_Z (Z.of_nat k))) (Fin (inject_Z (Z.of_nat n))) in
  let v := fmul (np_min2 (fdiv (rate k1 n1) (rate k0 n0))
                         (fdiv (rate k0 n0) (rate k1 n1))) (Fin 100) in
  match n1, n0, k1, k0 with
  | O, _, _, _ => v = NaN
  | _, O, _, _ => v = NaN
  | _, _, O, O => v = NaN
  | _, _, O, _ => v = Fin 0
  | _, _, _, O => v = Fin 0
  | _, _, _, _ =>
      exists m, v = fin (m * 100) /\ 0 < m <= 1
                /\ (m == 1 <-> inject_Z (Z.of_nat k1) / inject_Z (Z.of_nat n1)
                               == inject_Z (Z.of_nat k0) / inject_Z (Z.of_nat n0))
  end.
Proof.
  intros H1 H0 rate v. subst v rate. cbv beta.
  rewrite (rate_value k1 n1 H1), (rate_value k0 n0 H0).
  destruct n1 as [|n1]; [reflexivity|].
  destruct n0 as [|n0]; [destruct k1; reflexivity|].
  set (a := inject_Z (Z.of_nat (S n1))). set (b := inject_Z (Z.of_nat (S n0))).
  destruct k1 as [|k1], k0 as [|k0].
  - reflexivity.
  - set (q := inject_Z (Z.of_nat (S k0)) / b).
    assert (Hq : 0 < Qred q) by (apply Qred_pos, Qdiv_pos; apply inject_nat_pos).
    unfold fin. rewrite !fdiv_fin_nonneg by lra.
    rewrite (Qeq_bool_pos _ Hq). reflexivity.
  - set (q := inject_Z (Z.of_nat (S k1)) / a).
    assert (Hq : 0 < Qred q) by (apply Qred_pos, Qdiv_pos; apply inject_nat_pos).
    unfold fin. rewrite !fdiv_fin_nonneg by lra.
    rewrite (Qeq_bool_pos _ Hq). reflexivity.
  - set (q1 := inject_Z (Z.of_nat (S k1)) / a).
    set (q0 := inject_Z (Z.of_nat (S k0)) / b).
    assert (Hq1 : 0 < Qred q1) by (apply Qred_pos, Qdiv_pos; apply inject_nat_pos).
    assert (Hq0 : 0 < Qred q0) by (apply Qred_pos, Qdiv_pos; apply inject_nat_pos).
    unfold fin. rewrite !fdiv_fin_nonneg by lra.
    rewrite (Qeq_bool_pos _ Hq1), (Qeq_bool_pos _ Hq0).
    destruct (ratio_min (Qred q1) (Qred q0) Hq1 Hq0) as (m & -> & Hm & Hiff).
    exists m. split; [apply fmul_percent; lra|]. split; [exact Hm|].
    rewrite Hiff, !Qred_correct. reflexivity.
Qed.

Lemma rates_equal_iff (k1 n1 k0 n0 : nat) :
  inject_Z (Z.of_nat k1) / inject_Z (Z.of_nat (S n1))
  == inject_Z (Z.of_nat k0) / inject_Z (Z.of_nat (S n0))
  <-> (k1 * S n0 = k0 * S n1)%nat.
Proof.
  pose proof (inject_nat_pos n1) as H1. pose proof (inject_nat_pos n0) as H0.
  set (a := inject_Z (Z.of_nat (S n1))) in *.
  set (b := inject_Z (Z.of_nat (S n0))) in *.
  assert (E : inject_Z (Z.of_nat k1) / a == inject_Z (Z.of_nat k0) / b
              <-> inject_Z (Z.of_nat k1) * b == inject_Z (Z.of_nat k0) * a).
  { split; intro H.
    - assert (X : inject_Z (Z.of_nat k1) * b
                  == inject_Z (Z.of_nat k1) / a * (a * b)) by (field; lra).
      rewrite X, H. field. lra.
    - assert (X : inject_Z (Z.of_nat k1) / a
                  == inject_Z (Z.of_nat k1) * b / (a * b)) by (field; lra).
      rewrite X, H. field. lra. }
  rewrite E. subst a b. rewrite <- !inject_Z_mult, inject_Z_injective.
  rewrite <- !Nat2Z.inj_mul. split; [apply Nat2Z.inj | intros ->; reflexivity].
Qed.

Lemma fin_not_zero (q : Q) : 0 < q -> fin q <> Fin 0.
Proof.
  intros H E. injection E as E.
  assert (X : Qred q == 0) by (rewrite E; reflexivity).
  rewrite Qred_correct in X. lra.
Qed.

Lemma fin_percent_100 (m : Q) : fin (m * 100) = Fin 100 <-> m == 1.
Proof.
  split.
  - intros E. injection E as E.
    assert (X : Qred (m * 100) == 100) by (rewrite E; reflexivity).
    rewrite Qred_correct in X. lra.
  - intros E. change (Fin 100) with (fin 100). apply fin_eq. rewrite E. reflexivity.
Qed.

(** [p_rule] in terms of the numbers of samples and of positive predictions
    of the two groups. *)
Lemma p_rule_counts (y_pred : list Q) (z_values : list Z) (t : Q) :
  List.length y_pred = List.length z_values -> ~ t == 0 ->
  exists v,
    p_rule y_pred z_values t = Ok v
    /\ match group_size y_pred z_values 1, group_size y_pred z_values 0,
             group_positives y_pred z_values t 1, group_positives y_pred z_values t 0
       with
       | O, _, _, _ => v = NaN
       | _, O, _, _ => v = NaN
       | _, _, O, O => v = NaN
       | _, _, O, _ => v = Fin 0
       | _, _, _, O => v = Fin 0
       | n1, n0, k1, k0 =>
           exists m, v = fin (m * 100) /\ 0 < m <= 1
                     /\ (m == 1 <-> (k1 * n0 = k0 * n1)%nat)
       end.
Proof.
  intros Hlen Ht. rewrite (@p_rule_rates y_pred z_values t Hlen Ht). eexists. split; [reflexivity|].
  cbv zeta. unfold positive_rate. cbv zeta.
  fold (group_size y_pred z_values 1) (group_size y_pred z_values 0)
       (group_positives y_pred z_values t 1) (group_positives y_pred z_values t 0).
  pose proof (percent_of_rates _ _ _ _ (group_positives_le y_pred z_values t 1)
                (group_positives_le y_pred z_values t 0)) as H.
  cbv zeta beta in H.
  destruct (group_size y_pred z_values 1) as [|n1]; [exact H|].
  destruct (group_size y_pred z_values 0) as [|n0]; [exact H|].
  destruct (group_positives y_pred z_values t 1) as [|k1],
           (group_positives y_pred z_values t 0) as [|k0]; try exact H.
  destruct H as (m & Hv & Hm & Hiff). exists m. split; [exact Hv|]. split; [exact Hm|].
  rewrite Hiff. apply rates_equal_iff.
Qed.

(** X1: with a threshold that is not zero, [p_rule] is NaN exactly when a
    group is empty or no sample of either group is predicted above the
    threshold. *)
Theorem p_rule_nan_iff (y_pred : list Q) (z_values : list Z) (t : Q) :
  List.length y_pred = List.length z_values -> ~ t == 0 ->
  (p_rule y_pred z_values t = Ok NaN
   <-> group_size y_pred z_values 1 = O
       \/ group_size y_pred z_values 0 = O
       \/ (group_positives y_pred z_values t 1 = O
           /\ group_positives y_pred z_values t 0 = O)).
Proof.
  intros Hlen Ht. destruct (p_rule_counts y_pred z_values t Hlen Ht) as (v & -> & H).
  destruct (group_size y_pred z_values 1) as [|n1]; [subst v; tauto|].
  destruct (group_size y_pred z_values 0) as [|n0]; [subst v; tauto|].
  destruct (group_positives y_pred z_values t 1) as [|k1],
           (group_positives y_pred z_values t 0) as [|k0].
  - subst v. tauto.
  - subst v. split; [discriminate | intros [X|[X|[_ X]]]; discriminate].
  - subst v. split; [discriminate | intros [X|[X|[X _]]]; discriminate].
  - destruct H as (m & -> & Hm & _).
    split; [discriminate | intros [X|[X|[X _]]]; discriminate].
Qed.

Lemma p_rule_nan_iff_witness :
  p_rule [9#10; 8#10] [0%Z; 0%Z] (1#2) = Ok NaN
  <-> group_size [9#10; 8#10] [0%Z; 0%Z] 1 = O
      \/ group_size [9#10; 8#10] [0%Z; 0%Z] 0 = O
      \/ (group_positives [9#10; 8#10] [0%Z; 0%Z] (1#2) 1 = O
          /\ group_positives [9#10; 8#10] [0%Z; 0%Z] (1#2) 0 = O).
Proof.
  apply (p_rule_nan_iff [9#10; 8#10] [0%Z; 0%Z] (1#2)).
  - reflexivity.
  - intro E. discriminate E.
Defined.

(** X2: with a threshold that is not zero, [p_rule] is 0 exactly when both
    groups have samples and exactly one of them has no sample predicted
    above the threshold: the division by the zero rate gives an infinity,
    not an error, and the minimum with its reciprocal is 0. *)
Theorem p_rule_zero_iff (y_pred : list Q) (z_values : list Z) (t : Q) :
  List.length y_pred = List.length z_values -> ~ t == 0 ->
  (p_rule y_pred z_values t = Ok (Fin 0)
   <-> group_size y_pred z_values 1 <> O
       /\ group_size y_pred z_values 0 <> O
       /\ ((group_positives y_pred z_values t 1 = O
            /\ group_positives y_pred z_values t 0 <> O)
           \/ (group_positives y_pred z_values t 1 <> O
               /\ group_positives y_pred z_values t 0 = O))).
Proof.
  intros Hlen Ht. destruct (p_rule_counts y_pred z_values t Hlen Ht) as (v & -> & H).
  destruct (group_size y_pred z_values 1) as [|n1];
    [subst v; split; [discriminate | tauto]|].
  destruct (group_size y_pred z_values 0) as [|n0];
    [subst v; split; [discriminate | tauto]|].
  destruct (group_positives y_pred z_values t 1) as [|k1],
           (group_positives y_pred z_values t 0) as [|k0].
  - subst v. split; [discriminate | tauto].
  - subst v. split; [intros _ | reflexivity].
    repeat split; try discriminate. left. split; [reflexivity | discriminate].
  - subst v. split; [intros _ | reflexivity].
    repeat split; try discriminate. right. split; [discriminate | reflexivity].
  - destruct H as (m & -> & Hm & _). split.
    + intros E. injection E as E. exfalso.
      apply (fin_not_zero (m * 100)); [lra | unfold fin; congruence].
    + intros (_ & _ & [[X _] | [_ X]]); discriminate.
Qed.

Lemma p_rule_zero_iff_witness :
  p_rule [1#10; 9#10] [0%Z; 1%Z] (1#2) = Ok (Fin 0).
Proof.
  apply (p_rule_zero_iff [1#10; 9#10] [0%Z; 1%Z] (1#2)).
  - reflexivity.
  - intro E. discriminate E.
  - repeat split; try discriminate. right. split; [discriminate | reflexivity].
Defined.

(** X3: with a threshold that is not zero, [p_rule] is 100 exactly when both
    groups have the same fraction of samples predicted above the threshold,
    and that fraction is not zero. *)
Theorem p_rule_100_iff (y_pred : list Q) (z_values : list Z) (t : Q) :
  List.length y_pred = List.length z_values -> ~ t == 0 ->
  (p_rule y_pred z_values t = Ok (Fin 100)
   <-> group_positives y_pred z_values t 1 <> O
       /\ group_positives y_pred z_values t 0 <> O
       /\ (group_positives y_pred z_values t 1 * group_size y_pred z_values 0
           = group_positives y_pred z_values t 0 * group_size y_pred z_values 1)%nat).
Proof.
  intros Hlen Ht. destruct (p_rule_counts y_pred z_values t Hlen Ht) as (v & -> & H).
  pose proof (group_positives_le y_pred z_values t 1) as L1.
  pose proof (group_positives_le y_pred z_values t 0) as L0.
  destruct (group_size y_pred z_values 1) as [|n1].
  { subst v. split; [discriminate | intros (X & _); lia]. }
  destruct (group_size y_pred z_values 0) as [|n0].
  { subst v. split; [discriminate | intros (_ & X & _); lia]. }
  destruct (group_positives y_pred z_values t 1) as [|k1],
           (group_positives y_pred z_values t 0) as [|k0].
  - subst v. split; [discriminate | intros (X & _); congruence].
  - subst v. split; [discriminate | intros (X & _); congruence].
  - subst v. split; [discriminate | intros (_ & X & _); congruence].
  - destruct H as (m & -> & Hm & Hiff). split.
    + intros E. injection E as E.
      assert (Em : fin (m * 100) = Fin 100) by (unfold fin; congruence).
      apply fin_percent_100 in Em. apply Hiff in Em.
      repeat split; try discriminate. exact Em.
    + intros (_ & _ & E). f_equal. apply fin_percent_100, Hiff, E.
Qed.

Lemma p_rule_100_iff_witness :
  p_rule [9#10; 1#10; 6#10; 2#10; 7#10; 3#10] [1%Z; 1%Z; 0%Z; 0%Z; 0%Z; 0%Z] (1#2)
  = Ok (Fin 100).
Proof.
  apply (p_rule_100_iff [9#10; 1#10; 6#10; 2#10; 7#10; 3#10]
           [1%Z; 1%Z; 0%Z; 0%Z; 0%Z; 0%Z] (1#2)).
  - reflexivity.
  - intro E. discriminate E.
  - repeat split; discriminate.
Defined.

Lemma combine_fst_snd {A B : Type} (l : list (A * B)) :
  combine (map fst l) (map snd l) = l.
Proof.
  induction l as [|[a b] l IH]; cbn [map combine fst snd]; [reflexivity|].
  rewrite IH. reflexivity.
Qed.

Lemma filter_filter_implied {A : Type} (f h : A -> bool) (l : list A) :
  (forall a, f a = true -> h a = true) ->
  filter f (filter h l) = filter f l.
Proof.
  intros H. induction l as [|a l IH]; cbn [filter]; [reflexivity|].
  destruct (h a) eqn:Eh; cbn [filter].
  - rewrite IH. reflexivity.
  - destruct (f a) eqn:Ef; [|exact IH].
    apply H in Ef. congruence.
Qed.

Lemma group_members_binary (y_pred : list Q) (z_values : list Z) (g : Z) :
  g = 0%Z \/ g = 1%Z ->
  group_members (map fst (binary_samples y_pred z_values))
                (map snd (binary_samples y_pred z_values)) g
  = group_members y_pred z_values g.
Proof.
  intros Hg. unfold group_members. rewrite combine_fst_snd. unfold binary_samples.
  apply filter_filter_implied. intros [p z]. cbn [snd].
  intros E. apply Z.eqb_eq in E. subst z.
  destruct Hg as [-> | ->]; reflexivity.
Qed.

(** X4: the samples whose group is neither 0 nor 1 have no part in
    [p_rule], whatever the threshold. *)
Theorem p_rule_ignores_other_groups (y_pred : list Q) (z_values : list Z) (t : Q) :
  List.length y_pred = List.length z_values ->
  p_rule y_pred z_values t
  = p_rule (map fst (binary_samples y_pred z_values))
           (map snd (binary_samples y_pred z_values)) t.
Proof.
  intros Hlen. unfold p_rule.
  rewrite !(boolean_index_group y_pred z_values) by exact Hlen.
  rewrite !boolean_index_group by (rewrite !length_map; reflexivity).
  rewrite !group_members_binary by auto.
  reflexivity.
Qed.

Lemma p_rule_ignores_other_groups_witness :
  p_rule [6#10; 1; 9#10; 1#10] [0%Z; 2%Z; 1%Z; 1%Z] (1#2)
  = p_rule [6#10; 9#10; 1#10] [0%Z; 1%Z; 1%Z] (1#2).
Proof.
  apply (p_rule_ignores_other_groups [6#10; 1; 9#10; 1#10] [0%Z; 2%Z; 1%Z; 1%Z] (1#2)).
  reflexivity.
Defined.

(** The key [(y_test == label) & (z_values == g)] keeps the predictions of
    the cell. *)
Lemma boolean_index_cell (y_test : list Z) (y_pred : list Q) (z_values : list Z)
    (label g : Z) :
  List.length y_test = List.length y_pred ->
  List.length z_values = List.length y_pred ->
  boolean_index y_pred
    (series_and (map (Z.eqb label) y_test) (map (Z.eqb g) z_values))
  = Ok (cell_predictions y_test y_pred z_values label g).
Proof.
  revert y_test z_values.
  induction y_pred as [|p y_pred IH]; intros [|l y_test] [|z z_values] H1 H2;
    cbn [List.length] in H1, H2; try discriminate; [reflexivity|].
  cbn [map series_and boolean_index cell_predictions].
  rewrite IH by lia. cbn [bind].
  destruct (Z.eqb label l && Z.eqb g z)%bool; reflexivity.
Qed.

Lemma rate_is_rate (k n : nat) :
  (k <= n)%nat ->
  is_rate (fdiv (Fin (inject_Z (Z.of_nat k))) (Fin (inject_Z (Z.of_nat n))))
  /\ (fdiv (Fin (inject_Z (Z.of_nat k))) (Fin (inject_Z (Z.of_nat n))) = NaN
      <-> n = O).
Proof.
  intros H. rewrite (rate_value k n H).
  destruct n as [|n].
  - split; [left; reflexivity | tauto].
  - destruct k as [|k].
    + split; [right; exists 0; split; [reflexivity | lra]|].
      split; [discriminate | discriminate].
    + split; [right | split; [discriminate | discriminate]].
      eexists. split; [reflexivity|]. rewrite Qred_correct.
      pose proof (inject_nat_pos n). pose proof (inject_nat_pos k).
      pose proof (inject_nat_le (S k) (S n) H).
      split.
      * apply Qle_shift_div_l; lra.
      * apply Qle_shift_div_r; lra.
Qed.

(** X5: on Series of one index, the entry of [fp_rate] for group [g] is the
    fraction of the predictions of the cell (label 0, group [g]) that are
    above the threshold: a number from 0 to 1, and NaN exactly when the
    cell is empty. *)
Theorem fp_rate_cells (y_test : list Z) (y_pred : list Q) (z_values : list Z) (t : Q) :
  List.length y_test = List.length y_pred ->
  List.length z_values = List.length y_pred ->
  exists r0 r1,
    fp_rate y_test y_pred z_values t = Ok [(0%Z, r0); (1%Z, r1)]
    /\ (forall g r, (g, r) = (0%Z, r0) \/ (g, r) = (1%Z, r1) ->
          let cell := cell_predictions y_test y_pred z_values 0 g in
          r = fdiv (Fin (inject_Z (Z.of_nat (List.length (filter (Qltb t) cell)))))
                   (Fin (inject_Z (Z.of_nat (List.length cell))))
          /\ is_rate r
          /\ (r = NaN <-> cell = [])).
Proof.
  intros H1 H2. unfold fp_rate.
  rewrite !boolean_index_cell by assumption. cbn [bind].
  eexists. eexists. split; [reflexivity|].
  intros g r [E | E]; injection E as -> ->; cbv zeta;
    (split; [reflexivity|]);
    match goal with
    | |- context [cell_predictions ?a ?b ?c ?d ?e] =>
        destruct (rate_is_rate
                    (List.length (filter (Qltb t) (cell_predictions a b c d e)))
                    (List.length (cell_predictions a b c d e))
                    (filter_length_le _ _)) as [R N]
    end;
    (split; [exact R|]); unfold div_len, count_gt;
    rewrite N; apply length_zero_iff_nil.
Qed.

Lemma fp_rate_cells_witness :
  exists r0 r1,
    fp_rate [0; 0; 1; 0]%Z [9#10; 1#10; 8#10; 7#10] [0; 0; 0; 1]%Z (1#2)
    = Ok [(0%Z, r0); (1%Z, r1)]
    /\ r0 = Fin (1#2) /\ r1 = Fin 1.
Proof.
  destruct (fp_rate_cells [0; 0; 1; 0]%Z [9#10; 1#10; 8#10; 7#10] [0; 0; 0; 1]%Z (1#2))
    as (r0 & r1 & E & H); [reflexivity | reflexivity |].
  exists r0, r1. split; [exact E|].
  split.
  - destruct (H 0%Z r0 (or_introl eq_refl)) as (-> & _). reflexivity.
  - destruct (H 1%Z r1 (or_intror eq_refl)) as (-> & _). reflexivity.
Defined.

Lemma cell_predictions_flip (y_test : list Z) (y_pred : list Q) (z_values : list Z)
    (g : Z) :
  cell_predictions (map (fun l => 1 - l)%Z y_test) y_pred z_values 0 g
  = cell_predictions y_test y_pred z_values 1 g.
Proof.
  revert y_pred z_values.
  induction y_test as [|l y_test IH]; intros [|p y_pred] [|z z_values]; try reflexivity.
  cbn [map cell_predictions]. rewrite IH.
  replace (Z.eqb 0 (1 - l)) with (Z.eqb 1 l); [reflexivity|].
  destruct (Z.eqb_spec 1 l) as [<- | H]; [reflexivity|].
  symmetry. apply Z.eqb_neq. lia.
Qed.

Lemma filter_complement_length {A : Type} (f : A -> bool) (l : list A) :
  (List.length (filter f l) + List.length (filter (fun a => negb (f a)) l)
   = List.length l)%nat.
Proof.
  induction l as [|a l IH]; cbn [filter List.length]; [reflexivity|].
  destruct (f a); cbn [negb List.length]; lia.
Qed.

Lemma rates_complementary (k j n : nat) :
  (k + j = n)%nat ->
  complementary (fdiv (Fin (inject_Z (Z.of_nat k))) (Fin (inject_Z (Z.of_nat n))))
                (fdiv (Fin (inject_Z (Z.of_nat j))) (Fin (inject_Z (Z.of_nat n)))).
Proof.
  intros H. rewrite (rate_value k n), (rate_value j n) by lia.
  destruct n as [|n]; [left; split; reflexivity | right].
  pose proof (inject_nat_pos n) as Hn.
  assert (E : inject_Z (Z.of_nat k) + inject_Z (Z.of_nat j) == inject_Z (Z.of_nat (S n))).
  { rewrite <- inject_Z_plus, <- Nat2Z.inj_add, H. reflexivity. }
  set (a := inject_Z (Z.of_nat (S n))) in *.
  assert (Es : inject_Z (Z.of_nat k) / a + inject_Z (Z.of_nat j) / a == 1).
  { setoid_replace (inject_Z (Z.of_nat k) / a + inject_Z (Z.of_nat j) / a)
      with ((inject_Z (Z.of_nat k) + inject_Z (Z.of_nat j)) / a) by (field; lra).
    rewrite E. field. lra. }
  destruct k as [|k], j as [|j].
  - exfalso. lia.
  - eexists. eexists. split; [reflexivity|]. split; [reflexivity|].
    rewrite Qred_correct. change (inject_Z (Z.of_nat 0)) with 0 in Es.
    rewrite <- Es. field. lra.
  - eexists. eexists. split; [reflexivity|]. split; [reflexivity|].
    rewrite Qred_correct. change (inject_Z (Z.of_nat 0)) with 0 in Es.
    rewrite <- Es. field. lra.
  - eexists. eexists. split; [reflexivity|]. split; [reflexivity|].
    rewrite !Qred_correct. exact Es.
Qed.

(** X6: the false negative rate of a group and the fraction of its
    positives that are predicted above the threshold, which is what
    [fp_rate] gives once the labels are exchanged ([1 - y_test]), add up to
    one; both are NaN when the group has no positive. *)
Theorem fn_rate_complement (y_test : list Z) (y_pred : list Q) (z_values : list Z)
    (t : Q) :
  List.length y_test = List.length y_pred ->
  List.length z_values = List.length y_pred ->
  exists a0 a1 b0 b1,
    fn_rate y_test y_pred z_values t = Ok [(0%Z, a0); (1%Z, a1)]
    /\ fp_rate (map (fun l => 1 - l)%Z y_test) y_pred z_values t
       = Ok [(0%Z, b0); (1%Z, b1)]
    /\ complementary a0 b0
    /\ complementary a1 b1.
Proof.
  intros H1 H2. unfold fn_rate, fp_rate.
  rewrite !boolean_index_cell by (rewrite ?length_map; assumption).
  rewrite !cell_predictions_flip. cbn [bind].
  do 4 eexists. split; [reflexivity|]. split; [reflexivity|].
  unfold div_len, count_le, count_gt.
  split; apply rates_complementary;
    match goal with
    | |- context [filter _ ?s] =>
        rewrite <- (filter_complement_length (fun v => Qle_bool v t) s)
    end; reflexivity.
Qed.

Lemma fn_rate_complement_witness :
  exists a0 a1 b0 b1,
    fn_rate [1; 1; 1; 0]%Z [9#10; 1#10; 8#10; 7#10] [0; 0; 0; 1]%Z (1#2)
    = Ok [(0%Z, a0); (1%Z, a1)]
    /\ fp_rate [0; 0; 0; 1]%Z [9#10; 1#10; 8#10; 7#10] [0; 0; 0; 1]%Z (1#2)
       = Ok [(0%Z, b0); (1%Z, b1)]
    /\ complementary a0 b0
    /\ complementary a1 b1.
Proof.
  apply (fn_rate_complement [1; 1; 1; 0]%Z [9#10; 1#10; 8#10; 7#10] [0; 0; 0; 1]%Z (1#2));
    reflexivity.
Defined.

(** ** Further properties of [load_GEN_data] *)

Lemma mapM_length {A B : Type} (f : A -> result B) (l : list A) (r : list B) :
  mapM f l = Ok r -> List.length r = List.length l.
Proof.
  revert r. induction l as [|a l IH]; intros r; cbn [mapM].
  - intros [= <-]. reflexivity.
  - destruct (f a) as [b|e]; [|discriminate]. cbn [bind].
    destruct (mapM f l) as [bs|e]; [|discriminate]. cbn [bind].
    intros [= <-]. cbn [List.length]. rewrite (IH bs eq_refl). reflexivity.
Qed.

Lemma astype_int_length (c : column) (y : list Z) :
  astype_int c = Ok y -> List.length y = rows c.
Proof.
  unfold rows. destruct c as [v|v|v|v]; cbn [astype_int cells].
  - intros [= <-]. rewrite length_map. reflexivity.
  - unfold all_some. destruct (mapM _ v) as [l|e] eqn:E; [|discriminate].
    cbn [bind]. intros [= <-]. rewrite !length_map. apply (mapM_length _ _ _ E).
  - intros [= <-]. rewrite !length_map. reflexivity.
  - unfold all_some. intros E. apply mapM_length in E.
    rewrite E, !length_map. reflexivity.
Qed.

Lemma rectangular_In (n : nat) (df : DataFrame) (label : string) (c : column) :
  rectangular n df -> In (label, c) df -> rows c = n.
Proof.
  intros R Hin. unfold rectangular in R. rewrite Forall_forall in R.
  apply (R (label, c) Hin).
Qed.

Lemma rows_indicator (v : list (option string)) (level : string) :
  rows (indicator v level) = rows (ObjCol v).
Proof. unfold rows, indicator. cbn [cells]. rewrite !length_map. reflexivity. Qed.

(** X7: on a file of [n] rows, what [load_GEN_data] returns has [n] rows
    throughout: [y] has [n] entries, the column of [Z] has [n] rows and so
    has every column of [X]. *)
Theorem load_GEN_data_shapes (read_csv : filesystem) (path : string)
    (df X Zf : DataFrame) (y : list Z) (n : nat) :
  read_csv path = Ok df ->
  rectangular n df ->
  load_GEN_data read_csv path = Ok (X, y, Zf) ->
  List.length y = n /\ rectangular n Zf /\ rectangular n X.
Proof.
  intros Hr R H.
  destruct (@load_GEN_data_inv read_csv path X y Zf H) as (df' & prot & target & Hr' & Hp & Ht & Hy).
  rewrite Hr in Hr'. injection Hr' as <-.
  rewrite (@load_GEN_data_ok read_csv path df prot target y Hr Hp Ht Hy) in H. injection H as <- <-.
  split; [|split].
  - rewrite (astype_int_length _ _ Hy).
    apply (rectangular_In n df "target" target R), (@getitem_In df "target" target Ht).
  - constructor; [|constructor]. cbn [snd]. unfold rows. cbn [cells].
    rewrite !length_map.
    apply (rectangular_In n df "protected" prot R), (@getitem_In df "protected" prot Hp).
  - unfold rectangular. apply Forall_forall. intros [label c] Hin. cbn [snd].
    apply in_get_dummies in Hin.
    destruct Hin as [[Hin _] | (l & v & level & Hin & _ & _ & ->)].
    + apply filter_In in Hin. apply (rectangular_In n df label c R), Hin.
    + apply filter_In in Hin. rewrite rows_indicator.
      apply (rectangular_In n df l (ObjCol v) R), Hin.
Qed.

Lemma load_GEN_data_shapes_witness :
  exists X y Zf,
    load_GEN_data example_files "data/generated.data" = Ok (X, y, Zf)
    /\ List.length y = 4%nat /\ rectangular 4 Zf /\ rectangular 4 X.
Proof.
  destruct (load_GEN_data example_files "data/generated.data")
    as [[[X y] Zf]|e] eqn:E.
  - exists X, y, Zf. split; [reflexivity|].
    apply (load_GEN_data_shapes example_files "data/generated.data" example_frame
             X Zf y 4).
    + reflexivity.
    + repeat constructor.
    + exact E.
  - vm_compute in E. discriminate E.
Defined.

Lemma string_lt_trans (a b c : string) : string_lt a b -> string_lt b c -> string_lt a c.
Proof.
  unfold string_lt. intros H1 H2.
  apply OrderedTypeEx.String_as_OT.cmp_lt.
  apply OrderedTypeEx.String_as_OT.cmp_lt in H1.
  apply OrderedTypeEx.String_as_OT.cmp_lt in H2.
  exact (OrderedTypeEx.String_as_OT.lt_trans _ _ _ H1 H2).
Qed.

Lemma string_lt_irrefl (a : string) : ~ string_lt a a.
Proof.
  unfold string_lt. intros H.
  assert (E : String.compare a a = Eq)
    by (apply OrderedTypeEx.String_as_OT.cmp_eq; reflexivity).
  congruence.
Qed.

Lemma string_gt_lt (a b : string) : String.compare a b = Gt -> string_lt b a.
Proof.
  unfold string_lt. intros H. rewrite String.compare_antisym, H. reflexivity.
Qed.

Lemma insert_level_In (s x : string) (levels : list string) :
  In x (insert_level s levels) <-> x = s \/ In x levels.
Proof.
  induction levels as [|l levels IH]; cbn [insert_level In].
  - intuition.
  - destruct (String.compare s l) eqn:E; cbn [In].
    + apply String.compare_eq_iff in E. subst l. intuition.
    + intuition.
    + rewrite IH. intuition.
Qed.

Lemma insert_level_sorted (s : string) (levels : list string) :
  StronglySorted string_lt levels -> StronglySorted string_lt (insert_level s levels).
Proof.
  induction 1 as [|l levels Hs IH Hall]; cbn [insert_level].
  - constructor; constructor.
  - destruct (String.compare s l) eqn:E.
    + constructor; assumption.
    + constructor; [constructor; assumption|].
      constructor; [exact E|].
      rewrite Forall_forall in *. intros x Hx.
      apply (string_lt_trans s l x E (Hall x Hx)).
    + constructor; [exact IH|].
      rewrite Forall_forall in *. intros x Hx.
      apply insert_level_In in Hx. destruct Hx as [-> | Hx].
      * apply string_gt_lt, E.
      * apply Hall, Hx.
Qed.

Lemma levels_of_sorted (v : list (option string)) :
  StronglySorted string_lt (levels_of v).
Proof.
  induction v as [|[s|] v IH]; cbn [levels_of].
  - constructor.
  - apply insert_level_sorted, IH.
  - exact IH.
Qed.

Lemma levels_of_In (v : list (option string)) (s : string) :
  In s (levels_of v) <-> In (Some s) v.
Proof.
  induction v as [|[s'|] v IH]; cbn [levels_of In].
  - tauto.
  - rewrite insert_level_In, IH. split; intros [H|H]; auto.
    + left. congruence.
    + left. congruence.
  - rewrite IH. split; [auto | intros [H|H]; [discriminate | exact H]].
Qed.

Lemma sorted_NoDup (l : list string) : StronglySorted string_lt l -> NoDup l.
Proof.
  induction 1 as [|a l Hs IH Hall]; constructor; [|exact IH].
  intros Hin. rewrite Forall_forall in Hall.
  apply (string_lt_irrefl a), Hall, Hin.
Qed.

Lemma sorted_tl (l : list string) :
  StronglySorted string_lt l -> StronglySorted string_lt (tl l).
Proof. intros H. destruct H; [constructor | assumption]. Qed.

Lemma append_cancel_l (a x y : string) : (a ++ x = a ++ y)%string -> x = y.
Proof.
  induction a as [|c a IH]; cbn [append]; [auto|].
  intros [= E]. apply IH, E.
Qed.

(** X8: the indicator columns that a string column gives are named after
    its distinct values, the smallest left out, in strictly increasing
    order: one column per remaining value, none twice. *)
Theorem dummy_columns_sorted (label : string) (v : list (option string)) :
  exists levels,
    columns (dummies_1d label v) = map (fun level => (label ++ "_" ++ level)%string) levels
    /\ StronglySorted string_lt levels
    /\ NoDup levels
    /\ (forall s, In s levels
                  <-> In (Some s) v /\ exists least, In (Some least) v /\ string_lt least s)
    /\ (forall level, In level levels ->
          getitem (dummies_1d label v) (label ++ "_" ++ level) = Ok (indicator v level)).
Proof.
  exists (tl (levels_of v)).
  pose proof (levels_of_sorted v) as Hs.
  split; [|split; [|split; [|split]]].
  - unfold columns, dummies_1d. rewrite map_map. reflexivity.
  - apply sorted_tl, Hs.
  - apply sorted_NoDup, sorted_tl, Hs.
  - intros s. destruct (levels_of v) as [|first rest] eqn:E; cbn [tl].
    + split; [intros [] | intros (Hin & _)].
      apply levels_of_In in Hin. rewrite E in Hin. exact Hin.
    + inversion Hs as [|? ? Hs' Hall]; subst. rewrite Forall_forall in Hall.
      split.
      * intros Hin. split.
        -- apply levels_of_In. rewrite E. right. exact Hin.
        -- exists first. split; [apply levels_of_In; rewrite E; left; reflexivity|].
           apply Hall, Hin.
      * intros (Hin & least & Hl & Hlt).
        apply levels_of_In in Hin. apply levels_of_In in Hl. rewrite E in Hin, Hl.
        destruct Hin as [<- | Hin]; [exfalso | exact Hin].
        destruct Hl as [<- | Hl].
        -- apply (string_lt_irrefl _ Hlt).
        -- apply (string_lt_irrefl first), (string_lt_trans _ least _ (Hall _ Hl) Hlt).
  - intros level Hin. unfold dummies_1d.
    assert (Hnd : NoDup (tl (levels_of v))) by apply sorted_NoDup, sorted_tl, Hs.
    induction (tl (levels_of v)) as [|l0 ls IH]; [destruct Hin|].
    cbn [map getitem].
    destruct (String.eqb_spec (label ++ "_" ++ l0) (label ++ "_" ++ level)) as [E | N].
    + apply append_cancel_l in E. cbn [append] in E.
      injection E as ->. rewrite dummy_is_indicator. reflexivity.
    + destruct Hin as [-> | Hin]; [congruence|].
      inversion Hnd; subst. apply IH; assumption.
Qed.





Lemma int_at_indicator (v : list (option string)) (level : string) (i : nat) :
  int_at (indicator v level) i
  = match nth i v None with
    | Some s => if String.eqb s level then 1%Z else 0%Z
    | None => 0%Z
    end.
Proof.
  unfold indicator, int_at. cbn [cells]. rewrite map_map.
  revert i. induction v as [|o v IH]; intros [|i]; cbn [map nth]; try reflexivity.
  - destruct o; reflexivity.
  - apply IH.
Qed.

Lemma row_sum_dummies (label : string) (v : list (option string)) (i : nat) :
  row_sum (dummies_1d label v) i
  = fold_right Z.add 0%Z
      (map (fun level => match nth i v None with
                         | Some s => if String.eqb s level then 1%Z else 0%Z
                         | None => 0%Z
                         end) (tl (levels_of v))).
Proof.
  unfold row_sum, dummies_1d. rewrite map_map. cbn [snd]. f_equal.
  apply map_ext. intros level. rewrite dummy_is_indicator. apply int_at_indicator.
Qed.

Lemma count_in_NoDup (s : string) (l : list string) :
  NoDup l ->
  fold_right Z.add 0%Z (map (fun level => if String.eqb s level then 1%Z else 0%Z) l)
  = if existsb (String.eqb s) l then 1%Z else 0%Z.
Proof.
  induction 1 as [|a l Hn _ IH]; cbn [map fold_right existsb]; [reflexivity|].
  rewrite IH. destruct (String.eqb_spec s a) as [-> | N]; cbn [orb]; [|reflexivity].
  destruct (existsb (String.eqb a) l) eqn:E; [|reflexivity].
  apply existsb_exists in E. destruct E as (x & Hx & Ex).
  apply String.eqb_eq in Ex. subst x. contradiction.
Qed.

(** X10: in every row the indicator columns of a string column hold at most
    one 1: exactly one when the entry is a value other than the smallest,
    none when the entry is the smallest value or is missing (which the
    codes therefore do not tell apart). *)
Theorem dummies_one_hot (label : string) (v : list (option string)) (i : nat) :
  row_sum (dummies_1d label v) i
  = match nth i v None with
    | Some s => if String.eqb s (hd s (levels_of v)) then 0%Z else 1%Z
    | None => 0%Z
    end.
Proof.
  rewrite row_sum_dummies.
  pose proof (levels_of_sorted v) as Hs.
  destruct (nth i v None) as [s|] eqn:En.
  - rewrite (count_in_NoDup s) by apply sorted_NoDup, sorted_tl, Hs.
    assert (Hin : In s (levels_of v)).
    { apply levels_of_In. rewrite <- En. apply nth_In.
      destruct (Nat.lt_ge_cases i (List.length v)) as [H|H]; [exact H|].
      rewrite (nth_overflow v None H) in En. discriminate. }
    destruct (levels_of v) as [|first rest]; [destruct Hin|].
    cbn [hd tl]. pose proof (sorted_NoDup _ Hs) as Hn. inversion Hn; subst.
    destruct (String.eqb_spec s first) as [-> | N].
    + destruct (existsb (String.eqb first) rest) eqn:E; [|reflexivity].
      apply existsb_exists in E. destruct E as (x & Hx & Ex).
      apply String.eqb_eq in Ex. subst x. contradiction.
    + destruct Hin as [<- | Hin]; [congruence|].
      assert (E : existsb (String.eqb s) rest = true)
        by (apply existsb_exists; exists s; split; [exact Hin | apply String.eqb_refl]).
      rewrite E. reflexivity.
  - induction (tl (levels_of v)) as [|l ls IH]; cbn [map fold_right];
      [reflexivity | rewrite IH; reflexivity].
Qed.
(** ** The density plots *)

Lemma protected_keys (cs : list cell) :
  group_keys (map (fun c => StrCell (if is_B c then "B" else "A")) cs)
  = (if forallb is_B cs then [] else [StrCell "A"])
    ++ (if existsb is_B cs then [StrCell "B"] else []).
Proof.
  induction cs as [|c cs IH]; [reflexivity|].
  cbn [map group_keys forallb existsb]. rewrite IH.
  destruct (is_B c), (forallb is_B cs), (existsb is_B cs); reflexivity.
Qed.

Lemma keep_protected (f : cell -> bool) (k : string) (cs : list cell) (y_pred : list Q) :
  (forall c, cell_eqb (StrCell k) (StrCell (if is_B c then "B" else "A")) = f c) ->
  keep (map (cell_eqb (StrCell k))
            (map (fun c => StrCell (if is_B c then "B" else "A")) cs))
       (map Some y_pred)
  = map (fun s => Some (snd s)) (filter (fun s => f (fst s)) (combine cs y_pred)).
Proof.
  intros Hf. revert y_pred.
  induction cs as [|c cs IH]; intros [|q y_pred]; try reflexivity.
  cbn [map keep combine filter fst]. rewrite Hf, IH.
  destruct (f c); reflexivity.
Qed.

Lemma label_AB_flag_B (cs : list cell) :
  map label_AB (map flag_B cs)
  = map (fun c => Some (if is_B c then "B" else "A")%string) cs.
Proof.
  rewrite map_map. apply map_ext. intros [z|q|b|s|]; try reflexivity.
  cbn [flag_B is_B]. destruct (String.eqb s "B"); reflexivity.
Qed.

(** X11: the plot by protected attribute, drawn from the [Z] that
    [load_GEN_data] returns, has at most two curves, 'A' before 'B'.  The
    'B' curve is estimated from the predictions of the rows whose value in
    the file is 'B', the 'A' curve from those of every other row, whatever
    its value in the file; a group without rows has no curve. *)
Theorem protected_curves (read_csv : filesystem) (path : string)
    (X : DataFrame) (y : list Z) (Zf df : DataFrame) (prot : column)
    (y_true : list Z) (y_pred : list Q) :
  load_GEN_data read_csv path = Ok (X, y, Zf) ->
  read_csv path = Ok df ->
  getitem df "protected" = Ok prot ->
  List.length y_pred = List.length (cells prot) ->
  List.length y_true = List.length (cells prot) ->
  exists sdf,
    subplot_df y_true Zf y_pred = Ok sdf
    /\ _subplot sdf "protected"
       = Ok ((if forallb is_B (cells prot) then []
              else [(StrCell "A",
                     FloatCol (predictions_where (fun c => negb (is_B c)) prot y_pred))])
             ++ (if existsb is_B (cells prot)
                 then [(StrCell "B", FloatCol (predictions_where is_B prot y_pred))]
                 else [])).
Proof.
  intros Hload Hcsv Hprot _ _.
  destruct (@load_GEN_data_inv read_csv path X y Zf Hload)
    as (df' & prot' & target & Hcsv' & Hprot' & Htarget & Hy).
  rewrite Hcsv in Hcsv'. injection Hcsv' as <-.
  rewrite Hprot in Hprot'. injection Hprot' as <-.
  rewrite (@load_GEN_data_ok read_csv path df prot target y Hcsv Hprot Htarget Hy) in Hload.
  injection Hload as _ <-.
  eexists. split; [reflexivity|].
  unfold _subplot, groupby.
  cbn [assign getitem String.eqb Ascii.eqb Bool.eqb bind fst snd int_values].
  rewrite label_AB_flag_B.
  cbn [cells]. rewrite map_map.
  rewrite protected_keys.
  unfold predictions_where.
  rewrite <- (keep_protected (fun c => negb (is_B c)) "A" (cells prot) y_pred)
    by (intros c; destruct (is_B c); reflexivity).
  rewrite <- (keep_protected is_B "B" (cells prot) y_pred)
    by (intros c; destruct (is_B c); reflexivity).
  destruct (forallb is_B (cells prot)), (existsb is_B (cells prot)); reflexivity.
Qed.

Lemma protected_curves_witness :
  exists sdf,
    subplot_df [1; 0; 1]%Z [("protected"%string, IntCol [0; 1; 0]%Z)] [1#2; 1#3; 1#4]
    = Ok sdf
    /\ _subplot sdf "protected"
       = Ok [(StrCell "A", FloatCol [Some (1#2); Some (1#4)]);
             (StrCell "B", FloatCol [Some (1#3)])].
Proof.
  exact (protected_curves
           (fun _ => Ok [("protected"%string, ObjCol [Some "C"; Some "B"; None]%string);
                         ("target"%string, IntCol [1; 0; 1]%Z)])
           "f.csv"%string [] [1; 0; 1]%Z
           [("protected"%string, IntCol [0; 1; 0]%Z)]
           [("protected"%string, ObjCol [Some "C"; Some "B"; None]%string);
            ("target"%string, IntCol [1; 0; 1]%Z)]
           (ObjCol [Some "C"; Some "B"; None]%string)
           [1; 0; 1]%Z [1#2; 1#3; 1#4]
           eq_refl eq_refl eq_refl eq_refl eq_refl).
Defined.
(** ** The labels of a target column of floats *)





(** ** The batches of a loader *)

Lemma chunk_nil {A : Type} (fuel n : nat) : @chunk A fuel n [] = [].
Proof. destruct fuel; reflexivity. Qed.

Lemma firstn_plus {A : Type} (a b : nat) (l : list A) :
  firstn (a + b) l = firstn a l ++ firstn b (skipn a l).
Proof.
  revert l. induction a as [|a IH]; intros [|x l]; cbn [Nat.add firstn skipn app];
    try reflexivity.
  - destruct b; reflexivity.
  - f_equal. apply IH.
Qed.

Lemma div_step (a b : nat) : (0 < b)%nat -> (b <= a)%nat -> (a / b = S ((a - b) / b))%nat.
Proof.
  intros Hb Hab.
  replace a with ((a - b) + 1 * b)%nat at 1 by lia.
  rewrite Nat.div_add by lia. lia.
Qed.

Lemma chunk_full {A : Type} (fuel size : nat) (l : list A) :
  (0 < size)%nat -> (List.length l <= fuel)%nat ->
  let kept := filter (fun grp => Nat.eqb (List.length grp) size) (chunk fuel size l) in
  List.length kept = (List.length l / size)%nat
  /\ List.concat kept = firstn (size * (List.length l / size)) l.
Proof.
  intros Hs. revert l.
  induction fuel as [|fuel IH]; intros l Hl.
  - destruct l; [|cbn in Hl; lia]. cbn. rewrite Nat.Div0.div_0_l.
    split; [reflexivity|]. rewrite firstn_nil. reflexivity.
  - destruct l as [|x l'] eqn:El.
    + cbn. rewrite Nat.Div0.div_0_l.
      split; [reflexivity|]. rewrite firstn_nil. reflexivity.
    + rewrite <- El in *. assert (Hne : l <> []) by (rewrite El; discriminate).
      assert (Hc : chunk (S fuel) size l = firstn size l :: chunk fuel size (skipn size l))
        by (rewrite El; reflexivity).
      rewrite Hc. cbn [filter]. clear Hc.
      destruct (Nat.le_gt_cases size (List.length l)) as [Hge|Hlt].
      * assert (Hf : List.length (firstn size l) = size)
          by (rewrite length_firstn; lia).
        rewrite Hf, Nat.eqb_refl.
        destruct (IH (skipn size l)) as [IH1 IH2];
          [rewrite length_skipn; rewrite El in *; cbn [List.length] in *; lia|].
        rewrite length_skipn in IH1, IH2.
        rewrite (div_step (List.length l) size Hs Hge).
        cbn [List.length List.concat]. split; [f_equal; exact IH1|].
        rewrite IH2.
        replace (size * S ((List.length l - size) / size))%nat
          with (size + size * ((List.length l - size) / size))%nat by lia.
        rewrite firstn_plus. reflexivity.
      * assert (Hf : List.length (firstn size l) = List.length l)
          by (rewrite length_firstn; lia).
        rewrite Hf.
        destruct (Nat.eqb_spec (List.length l) size) as [E|_]; [lia|].
        rewrite (skipn_all2 l) by lia. rewrite chunk_nil.
        rewrite Nat.div_small by lia. rewrite Nat.mul_0_r.
        split; reflexivity.
Qed.

Lemma chunk_concat {A : Type} (fuel size : nat) (l : list A) :
  (0 < size)%nat -> (List.length l <= fuel)%nat ->
  List.concat (chunk fuel size l) = l.
Proof.
  intros Hs. revert l.
  induction fuel as [|fuel IH]; intros l Hl.
  - destruct l; [reflexivity|cbn in Hl; lia].
  - destruct l as [|x l'] eqn:El; [reflexivity|].
    rewrite <- El in *.
    assert (Hc : chunk (S fuel) size l = firstn size l :: chunk fuel size (skipn size l))
      by (rewrite El; reflexivity).
    rewrite Hc. cbn [List.concat].
    rewrite IH; [apply firstn_skipn|].
    rewrite length_skipn. rewrite El in *. cbn [List.length] in *. lia.
Qed.

Lemma take_length {A : Type} (d : A) (idx : list nat) (l : list A) :
  List.length (take d idx l) = List.length idx.
Proof. unfold take. apply length_map. Qed.

Section Batches.

Context {L : Library}.

Lemma batches_of_eq (dl : DataLoader) (g : Rng) :
  fst (batches_of dl g)
  = map (batch_at (dataset dl))
        (let groups := chunk (List.length (ds_X (dataset dl)))
                             (Pos.to_nat (batch_size dl)) (loader_order dl g) in
         if drop_last dl
         then filter (fun grp => Nat.eqb (List.length grp) (Pos.to_nat (batch_size dl)))
                     groups
         else groups).
Proof.
  unfold batches_of, loader_order.
  destruct (if shuffle dl then _ else _) as [order g']. reflexivity.
Qed.

(** X13: a loader that drops the last batch, as the notebook's does, gives
    [n / batch_size] batches (rounded down) for a data set of [n] samples,
    each of exactly [batch_size] rows of [x], of [y] and of [z]; a data
    set smaller than one batch gives none. *)
Theorem batches_of_drop_last (dl : DataLoader) (g : Rng) :
  let n := List.length (ds_X (dataset dl)) in
  let size := Pos.to_nat (batch_size dl) in
  drop_last dl = true ->
  List.length (loader_order dl g) = n ->
  List.length (fst (batches_of dl g)) = (n / size)%nat
  /\ Forall (batch_rows size) (fst (batches_of dl g))
  /\ ((n < size)%nat -> fst (batches_of dl g) = []).
Proof.
  intros n size Hdrop Hlen.
  rewrite batches_of_eq, Hdrop. cbv zeta.
  fold n size.
  destruct (chunk_full n size (loader_order dl g)) as [H1 _];
    [unfold size; lia | rewrite Hlen; lia |].
  rewrite Hlen in H1.
  assert (Hcount : List.length
            (map (batch_at (dataset dl))
               (filter (fun grp => Nat.eqb (List.length grp) size)
                  (chunk n size (loader_order dl g)))) = (n / size)%nat)
    by (rewrite length_map; exact H1).
  split; [exact Hcount|]. split.
  - apply Forall_forall. intros b Hb.
    apply in_map_iff in Hb. destruct Hb as (idx & <- & Hidx).
    apply filter_In in Hidx. destruct Hidx as [_ Hidx].
    apply Nat.eqb_eq in Hidx.
    unfold batch_at, batch_rows. rewrite !take_length. auto.
  - intros Hsmall. rewrite Nat.div_small in Hcount by exact Hsmall.
    apply length_zero_iff_nil, Hcount.
Qed.

Lemma batches_of_blocks (dl : DataLoader) (g : Rng) :
  let n := List.length (ds_X (dataset dl)) in
  let size := Pos.to_nat (batch_size dl) in
  List.length (loader_order dl g) = n ->
  exists idxs : list (list nat),
    fst (batches_of dl g) = map (batch_at (dataset dl)) idxs
    /\ List.concat idxs
       = firstn (if drop_last dl then n - n mod size else n) (loader_order dl g).
Proof.
  intros n size Hlen.
  assert (Hs : (0 < size)%nat) by (unfold size; lia).
  eexists. split; [apply batches_of_eq|].
  cbv zeta. fold n size.
  destruct (drop_last dl).
  - destruct (chunk_full n size (loader_order dl g)) as [_ H2];
      [exact Hs | rewrite Hlen; lia |].
    rewrite H2, Hlen. f_equal.
    pose proof (Nat.div_mod_eq n size). lia.
  - rewrite chunk_concat by (try exact Hs; rewrite Hlen; lia).
    rewrite <- Hlen at 1. symmetry. apply firstn_all.
Qed.

Lemma permutation_bound (n : nat) (order : list nat) :
  Permutation (seq 0 n) order -> Forall (fun i => (i < n)%nat) order.
Proof.
  intros Hperm. apply Forall_forall. intros i Hi.
  apply (Permutation_in _ (Permutation_sym Hperm)) in Hi.
  apply in_seq in Hi. lia.
Qed.

Lemma firstn_In {A : Type} (k : nat) (l : list A) (a : A) :
  In a (firstn k l) -> In a l.
Proof.
  intros H. rewrite <- (firstn_skipn k l). apply in_or_app. left. exact H.
Qed.

(** X14: one pass of a loader whose order is a permutation of the
    positions takes no sample twice: its batches are the rows of [x], [y]
    and [z] at the same positions, consecutive blocks of the order; a
    loader that drops the last batch leaves out the last
    [n mod batch_size] positions of the order, any other goes through all
    of them. *)
Theorem batches_of_no_repeat (dl : DataLoader) (g : Rng) :
  let n := List.length (ds_X (dataset dl)) in
  let size := Pos.to_nat (batch_size dl) in
  Permutation (seq 0 n) (loader_order dl g) ->
  exists idxs : list (list nat),
    fst (batches_of dl g) = map (batch_at (dataset dl)) idxs
    /\ List.concat idxs
       = firstn (if drop_last dl then n - n mod size else n) (loader_order dl g)
    /\ NoDup (List.concat idxs)
    /\ Forall (fun i => (i < n)%nat) (List.concat idxs).
Proof.
  intros n size Hperm.
  assert (Hlen : List.length (loader_order dl g) = n)
    by (rewrite <- (Permutation_length Hperm); apply length_seq).
  assert (Hnodup : NoDup (loader_order dl g))
    by (apply (Permutation_NoDup Hperm), seq_NoDup).
  destruct (batches_of_blocks dl g Hlen) as (idxs & Hb & Hcat).
  exists idxs. split; [exact Hb|]. split; [exact Hcat|].
  fold n size in Hcat. rewrite Hcat. split.
  - rewrite <- (firstn_skipn (if drop_last dl then n - n mod size else n)
                  (loader_order dl g)) in Hnodup.
    apply NoDup_app_remove_r in Hnodup. exact Hnodup.
  - apply Forall_forall. intros i Hi. apply firstn_In in Hi.
    exact (proj1 (Forall_forall _ _) (permutation_bound n _ Hperm) i Hi).
Qed.

End Batches.

Lemma batches_of_drop_last_witness :
  List.length (fst (batches_of small_loader 0%nat)) = 2%nat
  /\ Forall (batch_rows 2) (fst (batches_of small_loader 0%nat))
  /\ ((4 < 2)%nat -> fst (batches_of small_loader 0%nat) = []).
Proof.
  exact (batches_of_drop_last (L := rational_library) small_loader 0%nat
           eq_refl eq_refl).
Defined.

Lemma batches_of_no_repeat_witness :
  exists idxs : list (list nat),
    fst (batches_of small_loader 0%nat) = map (batch_at small_data) idxs
    /\ List.concat idxs = [0; 1; 2; 3]%nat
    /\ NoDup (List.concat idxs)
    /\ Forall (fun i => (i < 4)%nat) (List.concat idxs).
Proof.
  exact (batches_of_no_repeat (L := rational_library) small_loader 0%nat
           (Permutation_refl _)).
Defined.
(** ** The shapes the networks take and give *)

Section Shapes.

Context {L : Library}.

Lemma width_forallb (i : nat) (t : tensor) :
  width i t -> forallb (fun row => Nat.eqb (List.length row) i) t = true.
Proof.
  intros H. apply forallb_forall. intros row Hrow.
  apply Nat.eqb_eq. exact (proj1 (Forall_forall _ _) H row Hrow).
Qed.

Lemma linear_row_length (w : list (list Q)) (b x : list Q) :
  List.length w = List.length b -> List.length (linear_row w b x) = List.length b.
Proof.
  revert b. induction w as [|r w IH]; intros [|c b]; cbn [linear_row List.length];
    try reflexivity; try discriminate.
  intros [= H]. f_equal. apply IH, H.
Qed.

Lemma mask_row_length (p : Q) (row : list Q) (mask : list bool) :
  List.length (fst (mask_row p row mask)) = List.length row.
Proof.
  revert mask. induction row as [|x row IH]; intros mask; [reflexivity|].
  cbn [mask_row]. specialize (IH (tl mask)).
  destruct (mask_row p row (tl mask)). cbn [fst List.length] in *. f_equal. exact IH.
Qed.

Lemma mask_rows_shape (p : Q) (n : nat) (t : tensor) (mask : list bool) :
  width n t ->
  List.length (mask_rows p t mask) = List.length t /\ width n (mask_rows p t mask).
Proof.
  revert mask. induction t as [|row t IH]; intros mask H.
  - split; [reflexivity|constructor].
  - inversion H as [|? ? Hrow Ht]; subst. cbn [mask_rows].
    pose proof (mask_row_length p row mask) as Hl.
    destruct (mask_row p row mask) as [r rest]. cbn [fst] in Hl.
    destruct (IH rest Ht) as [IH1 IH2].
    split; [cbn [List.length]; f_equal; exact IH1|].
    constructor; [exact Hl | exact IH2].
Qed.

Lemma width_map (f : list Q -> list Q) (n m : nat) (t : tensor) :
  (forall row, List.length row = n -> List.length (f row) = m) ->
  width n t -> width m (map f t).
Proof.
  intros Hf H. induction H; cbn [map]; constructor; auto.
Qed.

(** One linear layer of the right shape on rows of its input width. *)
Lemma linear_forward (i o : nat) (w : list (list Q)) (b : list Q) (g : Rng) (t : tensor) :
  List.length w = o -> List.length b = o -> width i t ->
  exists t', layer_forward (Linear i o w b) g t = Ok (t', g)
             /\ List.length t' = List.length t /\ width o t'.
Proof.
  intros Hw Hb Ht. eexists. cbn [layer_forward].
  rewrite (width_forallb i t Ht). split; [reflexivity|]. split.
  - apply length_map.
  - apply (width_map _ i o); [|exact Ht].
    intros row _. rewrite linear_row_length; congruence.
Qed.

Lemma relu_forward (n : nat) (g : Rng) (t : tensor) :
  width n t ->
  exists t', layer_forward ReLU g t = Ok (t', g)
             /\ List.length t' = List.length t /\ width n t'.
Proof.
  intros Ht. eexists. split; [reflexivity|]. split.
  - apply length_map.
  - apply (width_map _ n n); [|exact Ht]. intros row <-. apply length_map.
Qed.

Lemma dropout_forward (p : Q) (n : nat) (g : Rng) (t : tensor) :
  width n t ->
  exists t' g', layer_forward (Dropout p) g t = Ok (t', g')
                /\ List.length t' = List.length t /\ width n t'.
Proof.
  intros Ht. cbn [layer_forward].
  destruct (bernoulli p (numel t) g) as [mask g'].
  exists (mask_rows p t mask), g'. split; [reflexivity|].
  apply mask_rows_shape, Ht.
Qed.

Lemma new_linear_shape (i o : nat) (g : Rng) :
  well_initialised ->
  exists w b, fst (new_linear i o g) = Linear i o w b
              /\ List.length w = o /\ List.length b = o.
Proof.
  intros HL. specialize (HL i o g). unfold linear_shape in HL.
  unfold new_linear. destruct (init_linear i o g) as [[w b] g'].
  cbn [fst] in *. exists w, b. tauto.
Qed.

Lemma sigmoid_shape (n : nat) (t : tensor) :
  width n t ->
  List.length (map (map sigmoid) t) = List.length t /\ width n (map (map sigmoid) t).
Proof.
  intros Ht. split; [apply length_map|].
  apply (width_map _ n n); [|exact Ht]. intros row <-. apply length_map.
Qed.

Ltac step_linear Hw Hb Ht :=
  let t' := fresh "t" in let E := fresh "E" in
  let Hl := fresh "Hl" in let Ht' := fresh "Ht" in
  match goal with
  | |- context [layer_forward (Linear ?i ?o ?w ?b) ?g ?t] =>
      destruct (linear_forward i o w b g t Hw Hb Ht) as (t' & E & Hl & Ht');
      rewrite E; cbn [bind]
  end.

Ltac step_relu Ht :=
  let t' := fresh "t" in let E := fresh "E" in
  let Hl := fresh "Hl" in let Ht' := fresh "Ht" in
  match goal with
  | |- context [layer_forward ReLU ?g ?t] =>
      destruct (relu_forward _ g t Ht) as (t' & E & Hl & Ht');
      rewrite E; cbn [bind]
  end.

Ltac step_dropout Ht :=
  let t' := fresh "t" in let g' := fresh "g" in let E := fresh "E" in
  let Hl := fresh "Hl" in let Ht' := fresh "Ht" in
  match goal with
  | |- context [layer_forward (Dropout ?p) ?g ?t] =>
      destruct (dropout_forward p _ g t Ht) as (t' & g' & E & Hl & Ht');
      rewrite E; cbn [bind]
  end.

(** X15: the layers of [Classifier] fit together.  With linear layers of
    the shapes torch gives them, the classifier built for [n_features]
    features runs without error on every batch whose rows have
    [n_features] elements, whatever the hidden width and the dropout, and
    gives one row of one probability per sample. *)
Theorem Classifier_shapes (n_features n_hidden : nat) (p_dropout : Q) (g0 g : Rng)
    (x : tensor) :
  well_initialised ->
  width n_features x ->
  exists p_y g',
    forward (out (fst (Classifier n_features n_hidden p_dropout g0))) g x = Ok (p_y, g')
    /\ List.length p_y = List.length x
    /\ width 1 p_y.
Proof.
  intros HL Hx. unfold Classifier.
  destruct (new_linear_shape n_features n_hidden g0 HL) as (w1 & b1 & E1 & Hw1 & Hb1).
  destruct (new_linear n_features n_hidden g0) as [l1 g1]. cbn [fst] in E1. subst l1.
  destruct (new_linear_shape n_hidden n_hidden g1 HL) as (w2 & b2 & E2 & Hw2 & Hb2).
  destruct (new_linear n_hidden n_hidden g1) as [l2 g2]. cbn [fst] in E2. subst l2.
  destruct (new_linear_shape n_hidden n_hidden g2 HL) as (w3 & b3 & E3 & Hw3 & Hb3).
  destruct (new_linear n_hidden n_hidden g2) as [l3 g3]. cbn [fst] in E3. subst l3.
  destruct (new_linear_shape n_hidden 1 g3 HL) as (w4 & b4 & E4 & Hw4 & Hb4).
  destruct (new_linear n_hidden 1 g3) as [l4 g4]. cbn [fst] in E4. subst l4.
  cbn [fst out]. unfold forward. cbn [sequential].
  step_linear Hw1 Hb1 Hx. step_relu Ht. step_dropout Ht0.
  step_linear Hw2 Hb2 Ht1. step_relu Ht2. step_dropout Ht3.
  step_linear Hw3 Hb3 Ht4. step_relu Ht5. step_dropout Ht6.
  step_linear Hw4 Hb4 Ht7.
  destruct (sigmoid_shape 1 _ Ht8) as [Hs1 Hs2].
  eexists _, _. split; [reflexivity|]. split; [|exact Hs2].
  congruence.
Qed.

(** X16: the adversary takes what the classifier gives.  On every batch of
    rows of one probability, the adversary built for [n_sensitive]
    attributes runs without error and gives one row of [n_sensitive]
    probabilities per sample; it has no dropout, so it draws nothing from
    the generator. *)
Theorem Adverserial_shapes (n_sensitive n_hidden : nat) (g0 g : Rng) (p_y : tensor) :
  well_initialised ->
  width 1 p_y ->
  exists p_z,
    forward (out (fst (Adverserial n_sensitive n_hidden g0))) g p_y = Ok (p_z, g)
    /\ List.length p_z = List.length p_y
    /\ width n_sensitive p_z.
Proof.
  intros HL Hx. unfold Adverserial.
  destruct (new_linear_shape 1 n_hidden g0 HL) as (w1 & b1 & E1 & Hw1 & Hb1).
  destruct (new_linear 1 n_hidden g0) as [l1 g1]. cbn [fst] in E1. subst l1.
  destruct (new_linear_shape n_hidden n_hidden g1 HL) as (w2 & b2 & E2 & Hw2 & Hb2).
  destruct (new_linear n_hidden n_hidden g1) as [l2 g2]. cbn [fst] in E2. subst l2.
  destruct (new_linear_shape n_hidden n_hidden g2 HL) as (w3 & b3 & E3 & Hw3 & Hb3).
  destruct (new_linear n_hidden n_hidden g2) as [l3 g3]. cbn [fst] in E3. subst l3.
  destruct (new_linear_shape n_hidden n_sensitive g3 HL) as (w4 & b4 & E4 & Hw4 & Hb4).
  destruct (new_linear n_hidden n_sensitive g3) as [l4 g4]. cbn [fst] in E4. subst l4.
  cbn [fst out]. unfold forward. cbn [sequential].
  step_linear Hw1 Hb1 Hx. step_relu Ht.
  step_linear Hw2 Hb2 Ht0. step_relu Ht1.
  step_linear Hw3 Hb3 Ht2. step_relu Ht3.
  step_linear Hw4 Hb4 Ht4.
  destruct (sigmoid_shape n_sensitive _ Ht5) as [Hs1 Hs2].
  eexists. split; [reflexivity|]. split; [|exact Hs2].
  congruence.
Qed.

(** X17: a batch with a row that has not [n_features] elements is refused by
    the first layer of the classifier: the forward pass raises
    RuntimeError, whatever the weights are. *)
Theorem Classifier_refuses_other_widths (n_features n_hidden : nat) (p_dropout : Q)
    (g0 g : Rng) (x : tensor) :
  ~ width n_features x ->
  forward (out (fst (Classifier n_features n_hidden p_dropout g0))) g x
  = Raise (RuntimeError "size mismatch").
Proof.
  intros Hx. unfold Classifier, new_linear.
  destruct (init_linear n_features n_hidden g0) as [[w1 b1] g1].
  destruct (init_linear n_hidden n_hidden g1) as [[w2 b2] g2].
  destruct (init_linear n_hidden n_hidden g2) as [[w3 b3] g3].
  destruct (init_linear n_hidden 1 g3) as [[w4 b4] g4].
  cbn [fst out]. unfold forward. cbn [sequential layer_forward].
  destruct (forallb _ x) eqn:E; [|reflexivity].
  exfalso. apply Hx. apply Forall_forall. intros row Hrow.
  apply Nat.eqb_eq. exact (proj1 (forallb_forall _ _) E row Hrow).
Qed.

End Shapes.

Lemma rational_library_well_initialised : well_initialised (L := rational_library).
Proof.
  intros i o g. unfold linear_shape. cbn [init_linear rational_library fst].
  rewrite !repeat_length. repeat split.
  apply Forall_forall. intros row Hrow.
  apply repeat_spec in Hrow. subst row. apply repeat_length.
Qed.

Lemma Classifier_shapes_witness :
  exists p_y g',
    forward (L := rational_library)
      (out (fst (Classifier 2 3 (1#5) 0%nat))) 5%nat [[1; 0]; [0; 1]] = Ok (p_y, g')
    /\ List.length p_y = 2%nat
    /\ width 1 p_y.
Proof.
  apply (Classifier_shapes (L := rational_library) 2 3 (1#5) 0%nat 5%nat [[1; 0]; [0; 1]]).
  - exact rational_library_well_initialised.
  - repeat constructor.
Defined.

Lemma Adverserial_shapes_witness :
  exists p_z,
    forward (L := rational_library)
      (out (fst (Adverserial 1 3 0%nat))) 5%nat [[1#2]; [1#3]] = Ok (p_z, 5%nat)
    /\ List.length p_z = 2%nat
    /\ width 1 p_z.
Proof.
  apply (Adverserial_shapes (L := rational_library) 1 3 0%nat 5%nat [[1#2]; [1#3]]).
  - exact rational_library_well_initialised.
  - repeat constructor.
Defined.

Lemma Classifier_refuses_other_widths_witness :
  forward (L := rational_library)
    (out (fst (Classifier 2 3 (1#5) 0%nat))) 5%nat [[1; 0]; [0; 1; 1]]
  = Raise (RuntimeError "size mismatch").
Proof.
  apply (Classifier_refuses_other_widths (L := rational_library)).
  intros H. inversion H as [|? ? _ H']; subst.
  inversion H' as [|? ? Hlen _]; subst. discriminate Hlen.
Defined.
(** ** Optimizer steps and gradient buffers *)

Section Steps.

Context {L : Library}.




Lemma zero_grad_accumulate (m : module) (G : list Q) :
  accumulate (zero_grad m) G = {| out := out m; grad := Grad G |}.
Proof. unfold accumulate, zero_grad. cbn [out grad]. destruct (grad m); reflexivity. Qed.

Lemma train_body_agree (adv_criterion : tensor -> tensor -> result Q)
    (s s' : train_state) (b : batch) :
  same_but_grads s s' ->
  agree (train_body adv_criterion s b) (train_body adv_criterion s' b).
Proof.
  destruct s as [[[oc gc] optc] [[oa ga] opta] rng vars].
  destruct s' as [[[oc' gc'] optc'] [[oa' ga'] opta'] rng' vars'].
  unfold same_but_grads. cbn [ts_clf ts_adv ts_rng ts_vars net out optimizer grad].
  intros (<- & <- & <- & <- & <- & <- & _).
  destruct b as [[x y] z]. unfold train_body.
  cbn [ts_clf ts_adv ts_rng ts_vars net optimizer out zero_grad].
  destruct (forward oc rng x) as [[p_y g1]|e]; cbn [bind agree]; [|reflexivity].
  destruct (forward oa g1 p_y) as [[p_adv g2]|e]; cbn [bind agree]; [|reflexivity].
  destruct (adv_criterion p_adv z) as [loss|e]; cbn [bind agree]; [|reflexivity].
  rewrite !zero_grad_accumulate. cbn [out].
  unfold optimizer_step. cbn [grad]. unfold adam_step. cbn [out grad].
  destruct (adam_update _ _ _ _) as [v mo]. cbn [agree].
  unfold same_but_grads, accumulate.
  cbn [ts_clf ts_adv ts_rng ts_vars net out optimizer grad].
  repeat split. right. reflexivity.
Qed.

Lemma train_loop_agree (adv_criterion : tensor -> tensor -> result Q)
    (bs : list batch) (s s' : train_state) :
  same_but_grads s s' ->
  agree (for_each (train_body adv_criterion) bs s)
        (for_each (train_body adv_criterion) bs s').
Proof.
  revert s s'. induction bs as [|b bs IH]; intros s s' H; cbn [for_each].
  - exact H.
  - pose proof (train_body_agree adv_criterion s s' b H) as Hb.
    destruct (train_body adv_criterion s b) as [t|e],
             (train_body adv_criterion s' b) as [t'|e'];
      cbn [agree bind] in *; try contradiction.
    + apply IH, Hb.
    + exact Hb.
Qed.

Lemma train_classifier_step_agree
    (clf_criterion : tensor -> tensor -> result Q)
    (clf_adv_criterion : tensor -> tensor -> result tensor)
    (s s' : train_state) :
  same_but_grads s s' ->
  train_classifier_step clf_criterion clf_adv_criterion s
  = train_classifier_step clf_criterion clf_adv_criterion s'.
Proof.
  destruct s as [[[oc gc] optc] [[oa ga] opta] rng vars].
  destruct s' as [[[oc' gc'] optc'] [[oa' ga'] opta'] rng' vars'].
  unfold same_but_grads. cbn [ts_clf ts_adv ts_rng ts_vars net out optimizer grad].
  intros (<- & <- & <- & <- & <- & <- & Hadv).
  unfold train_classifier_step.
  cbn [ts_clf ts_adv ts_rng ts_vars net optimizer].
  destruct vars as [v|]; [|reflexivity].
  destruct Hadv as [Hadv|Hadv]; [discriminate|]. subst ga'.
  cbn [out zero_grad].
  destruct (clf_loss_value _ _ _ _ _ _ _) as [l|e]; cbn [bind]; [|reflexivity].
  rewrite !zero_grad_accumulate. reflexivity.
Qed.

(** X19: gradients left in the buffers never reach an update of [train].
    Whatever the [.grad] buffers of the classifier and of the adversary
    hold when [train] is called, it returns the same networks, optimizers
    and generator, or raises the same exception: the adversary's buffers
    are zeroed before each of its steps, and what the batch loop adds to
    the classifier's is zeroed before the classifier's one step. *)
Theorem train_ignores_stale_gradients
    (clf_out adv_out : list layer) (clf_opt adv_opt : adam Moments)
    (clf_grad clf_grad' adv_grad adv_grad' : grad_buffer)
    (data_loader : DataLoader)
    (clf_criterion adv_criterion : tensor -> tensor -> result Q)
    (clf_adv_criterion : tensor -> tensor -> result tensor) (g : Rng) :
  train {| net := {| out := clf_out; grad := clf_grad |}; optimizer := clf_opt |}
        {| net := {| out := adv_out; grad := adv_grad |}; optimizer := adv_opt |}
        data_loader clf_criterion adv_criterion clf_adv_criterion g
  = train {| net := {| out := clf_out; grad := clf_grad' |}; optimizer := clf_opt |}
          {| net := {| out := adv_out; grad := adv_grad' |}; optimizer := adv_opt |}
          data_loader clf_criterion adv_criterion clf_adv_criterion g.
Proof.
  unfold train, train_loop.
  destruct (batches_of data_loader g) as [bs g0].
  match goal with
  | |- bind (for_each _ _ ?s) _ = bind (for_each _ _ ?s') _ =>
      pose proof (train_loop_agree adv_criterion bs s s') as H
  end.
  match type of H with
  | ?P -> _ => assert (H0 : P)
  end.
  { unfold same_but_grads. cbn [ts_clf ts_adv ts_rng ts_vars net out optimizer grad].
    repeat split. left. reflexivity. }
  specialize (H H0).
  destruct (for_each _ bs _) as [t|e], (for_each _ bs _) as [t'|e'];
    cbn [agree bind] in *; try contradiction.
  - apply train_classifier_step_agree, H.
  - f_equal. exact H.
Qed.

End Steps.

(** ** The figures *)


(** ** The data set *)

Lemma transpose_column (col : list Q) :
  transpose (List.length col) [col] = map (fun v => [v]) col.
Proof.
  induction col as [|v col IH]; [reflexivity|].
  cbn [List.length transpose map hd tl]. f_equal. exact IH.
Qed.

Lemma as_matrix_int_column (label : string) (v : list Z) :
  as_matrix [(label, IntCol v)] = Ok (map (fun c => [inject_Z c]) v).
Proof.
  unfold as_matrix. cbn [mapM snd column_floats bind hd].
  rewrite transpose_column, map_map. reflexivity.
Qed.

(** X21: [GenDataset] keeps the samples in their rows.  From features of
    [n] rows, [n] labels and the one column of [n] group flags that
    [load_GEN_data] returns, it makes a data set whose row [i] of [y] and of
    [Z] holds the label and the flag of sample [i] as a float; with any
    other number of labels or flags it raises AssertionError. *)
Theorem new_GenDataset_rows (X : tensor) (y z : list Z) :
  new_GenDataset X y [("protected"%string, IntCol z)]
  = if (Nat.eqb (List.length X) (List.length y)
        && Nat.eqb (List.length X) (List.length z))%bool
    then Ok {| ds_X := X;
               ds_y := map (fun c => [inject_Z c]) y;
               ds_Z := map (fun c => [inject_Z c]) z |}
    else Raise AssertionError.
Proof.
  unfold new_GenDataset. rewrite !as_matrix_int_column. cbn [bind].
  rewrite !length_map. reflexivity.
Qed.
(** ** The figures of a run *)

Section Figures.

Context {L : Library}.

Ltac bind_inv H x E :=
  match type of H with
  | bind ?r _ = Ok _ =>
      destruct r as [x|?] eqn:E; cbn [bind] in H; [|discriminate H]
  end.

Lemma plot_dists_epoch (y_true : list Z) (Z_true : DataFrame) (y_pred : list Q)
    (Z_pred : option (list Q)) (epoch : option nat) (fig : figure) :
  plot_dists y_true Z_true y_pred Z_pred epoch = Ok fig -> fig_epoch fig = epoch.
Proof.
  unfold plot_dists. intros H.
  bind_inv H prot E1. bind_inv H z E2. bind_inv H text E3.
  injection H as <-. reflexivity.
Qed.

Lemma combined_epochs (d : prepared) (es : list nat)
    (clf adv clf' adv' : learner) (g g' : Rng) (figs figs' : list figure) :
  for_each (combined_epoch d) es (clf, adv, g, figs) = Ok (clf', adv', g', figs') ->
  map fig_epoch figs'
  = map fig_epoch figs
    ++ map Some (filter (fun e => Nat.eqb (e mod (N_EPOCH_COMBINED / 10)) 0) es).
Proof.
  revert clf adv g figs.
  induction es as [|e es IH]; intros clf adv g figs; cbn [for_each].
  - intros [= <- <- <- <-]. cbn [filter map]. rewrite app_nil_r. reflexivity.
  - intros H. bind_inv H s1 E. destruct s1 as [[[clf1 adv1] g1] figs1].
    apply IH in H. rewrite H. clear H IH.
    unfold combined_epoch in E.
    bind_inv E t E0. destruct t as [[clf2 adv2] g2].
    bind_inv E clfp E1. destruct clfp as [clf_pred g3].
    bind_inv E advp E2. destruct advp as [adv_pred g4].
    cbn [filter].
    destruct (Nat.eqb (e mod (N_EPOCH_COMBINED / 10)) 0).
    + bind_inv E fig E3. injection E as <- <- <- <-.
      apply plot_dists_epoch in E3.
      rewrite map_app, <- app_assoc. cbn [map app]. rewrite E3. reflexivity.
    + injection E as <- <- <- <-. reflexivity.
Qed.

(** X22: a run of the notebook that ends shows twelve figures, in this
    order: the classifier after its pretraining, the same with the
    pretrained adversary (neither carries an epoch), and one after each of
    the epochs 0, 10, .., 90 of the combined training.  The state after the
    last epoch, 99, is not drawn. *)
Theorem notebook_figures (read_csv : filesystem) (gen : generators)
    (figs : list figure) :
  notebook read_csv gen = Ok figs ->
  map fig_epoch figs
  = [None; None; Some 0; Some 10; Some 20; Some 30; Some 40; Some 50; Some 60;
     Some 70; Some 80; Some 90]%nat.
Proof.
  unfold notebook. intros H. bind_inv H d Ed.
  unfold training_cells in H.
  destruct (Classifier _ _ _ _) as [clf_module g1].
  bind_inv H s1 E1. destruct s1 as [clf g2].
  bind_inv H s2 E2. destruct s2 as [pre_clf_test g3].
  bind_inv H fig1 F1.
  destruct (Adverserial _ _ _) as [adv_module g4].
  bind_inv H s3 E3. destruct s3 as [adv g5].
  bind_inv H s4 E4. destruct s4 as [pre_adv_test g6].
  bind_inv H fig2 F2.
  bind_inv H s5 E5. destruct s5 as [[[clf' adv'] g7] figs'].
  injection H as <-.
  unfold for_epochs in E5. apply combined_epochs in E5. rewrite E5.
  apply plot_dists_epoch in F1, F2.
  cbn [map]. rewrite F1, F2. reflexivity.
Qed.

End Figures.

Lemma notebook_figures_witness :
  exists figs,
    notebook (L := still_library) still_files (@Build_generators still_library tt tt)
    = Ok figs
    /\ map fig_epoch figs
       = [None; None; Some 0; Some 10; Some 20; Some 30; Some 40; Some 50; Some 60;
          Some 70; Some 80; Some 90]%nat.
Proof.
  destruct (notebook (L := still_library) still_files
              (@Build_generators still_library tt tt)) as [figs|e] eqn:E.
  - exists figs. split; [reflexivity|].
    exact (notebook_figures (L := still_library) still_files
             (@Build_generators still_library tt tt) figs E).
  - exfalso. vm_compute in E. discriminate E.
Defined.
(** ** The training runs through *)

Section Runs.

Context {L : Library}.
















End Runs.






